(** * node-ad-tools: the ActiveDirectory class of lib/ActiveDirectory.js

    A shallow embedding of the record decoders ([resolveGroups],
    [resolveGUID], [createUserObj], ...), of the error classifier
    ([resolveBindError]) and of the three operations that talk to the
    directory ([loginUser], [getAllGroups], [getAllUsers]), followed by the
    properties established about them.

    The embedded text is the current revision of the class (the one with
    [_bind] and [_search]). *)

From Stdlib Require Import ZArith Lia Ascii Strings.Byte.
From stdpp Require Import base strings list gmap pretty.

Set Warnings "-register-all".

(** ** JavaScript values

    The data the class inspects at run time: primitives, arrays and plain
    objects.  Numbers are the integral ones (size limits, time-outs); strings
    are byte strings, so character operations are those of ASCII text.  There
    are no function values: calling a property of a plain object is always a
    [TypeError]. *)

Inductive value : Type :=
| VUndefined
| VNull
| VBool (b : bool)
| VNum (n : Z)
| VStr (s : string)
| VArr (elems : list value)
| VObj (props : gmap string value).

(** How a statement ends: with a value, or with a thrown value. A rejected
    promise that is awaited is a [Throw] too. *)
Inductive completion (A : Type) : Type :=
| Return (a : A)
| Throw (e : value).
Arguments Return {A} a.
Arguments Throw {A} e.

Definition cbind {A B} (m : completion A) (k : A -> completion B) : completion B :=
  match m with
  | Return a => k a
  | Throw e => Throw e
  end.

Notation "'do*' x ':=' m 'in' k" := (cbind m (fun x => k))
  (at level 10, x name, m at level 100, k at level 200).

(** [Array.prototype.map] with a callback that may throw: left to right, the
    first throw ends the loop. *)
Fixpoint mapM {A B} (f : A -> completion B) (l : list A) : completion (list B) :=
  match l with
  | [] => Return []
  | x :: r => do* y := f x in do* ys := mapM f r in Return (y :: ys)
  end.

Module Js.

(** Error objects, as far as the class reads them: [name] and, for the
    errors of ldapjs, [lde_message]. *)
Definition newError (name message : string) : value :=
  VObj (<["name" := VStr name]> (<["message" := VStr message]> empty)).

Definition typeError (message : string) : value := newError "TypeError" message.

Definition typeof (v : value) : string :=
  match v with
  | VUndefined => "undefined"
  | VNull => "object"
  | VBool _ => "boolean"
  | VNum _ => "number"
  | VStr _ => "string"
  | VArr _ => "object"
  | VObj _ => "object"
  end.

Definition isArray (v : value) : bool :=
  match v with VArr _ => true | _ => false end.

(** ToBoolean. *)
Definition truthy (v : value) : bool :=
  match v with
  | VUndefined | VNull => false
  | VBool b => b
  | VNum n => negb (n =? 0)%Z
  | VStr s => negb (String.eqb s "")
  | VArr _ | VObj _ => true
  end.

(** [v === undefined] *)
Definition isUndefined (v : value) : bool :=
  match v with VUndefined => true | _ => false end.

(** [v === 'literal'] *)
Definition isStr (v : value) (lit : string) : bool :=
  match v with VStr s => String.eqb s lit | _ => false end.

(** [v.key] for the data properties the class reads ([name],
    [lde_message], [memberOf], ...; never [length], an index or a method):
    own properties of plain objects, [undefined] on everything else that
    has properties, a [TypeError] on [undefined] and [null]. *)
Definition get (v : value) (key : string) : completion value :=
  match v with
  | VUndefined | VNull => Throw (typeError ("Cannot read property '" +:+ key +:+ "'"))
  | VObj props => Return (default VUndefined (props !! key))
  | _ => Return VUndefined
  end.

(** [a || b] on values. *)
Definition or_else (a b : value) : value := if truthy a then a else b.

(** ToString, as a template literal applies it. *)
Fixpoint toStr (v : value) : string :=
  match v with
  | VUndefined => "undefined"
  | VNull => "null"
  | VBool true => "true"
  | VBool false => "false"
  | VNum n => pretty n
  | VStr s => s
  | VArr l =>
      String.concat ","
        (map (fun x => match x with VUndefined | VNull => "" | _ => toStr x end) l)
  | VObj _ => "[object Object]"
  end.

(** *** Strings *)

(** [s.indexOf(sub)], -1 when [sub] does not occur. *)
Definition indexOf (sub s : string) : Z :=
  match String.index 0 sub s with
  | Some i => Z.of_nat i
  | None => (-1)%Z
  end.

(** [s.split(sep)] for a separator that is not empty: [skip] counts the
    characters of a separator just found that are still to be passed over,
    [cur] is the piece read so far. *)
Fixpoint splitOn (sep s : string) (skip : nat) (cur : string) : list string :=
  match s with
  | EmptyString => [cur]
  | String c s' =>
      match skip with
      | S k => splitOn sep s' k cur
      | O =>
          if String.prefix sep s
          then cur :: splitOn sep s' (String.length sep - 1) ""
          else splitOn sep s' 0 (cur +:+ String c "")
      end
  end.

Fixpoint chars (s : string) : list string :=
  match s with
  | EmptyString => []
  | String c s' => String c "" :: chars s'
  end.

Definition split (sep s : string) : list string :=
  match sep with
  | EmptyString => chars s
  | _ => splitOn sep s 0 ""
  end.
#[global] Arguments split : simpl never.

Definition upper (c : ascii) : ascii :=
  let n := Ascii.nat_of_ascii c in
  if (97 <=? n)%nat && (n <=? 122)%nat then Ascii.ascii_of_nat (n - 32) else c.

Fixpoint toUpperCase (s : string) : string :=
  match s with
  | EmptyString => EmptyString
  | String c s' => String (upper c) (toUpperCase s')
  end.

(** [s.slice(from, to)] for [0 <= from <= to]. *)
Definition slice (from to : nat) (s : string) : string :=
  String.substring from (to - from) s.

(** *** Method calls on values *)

Definition notAFunction {A} (method : string) : completion A :=
  Throw (typeError (method +:+ " is not a function")).

Definition noProperty {A} (method : string) : completion A :=
  Throw (typeError ("Cannot read property '" +:+ method +:+ "'")).

(** [Array.prototype.indexOf] looking for a string: strict equality. *)
Fixpoint arrayIndexOf (needle : string) (l : list value) (i : Z) : Z :=
  match l with
  | [] => (-1)%Z
  | x :: r => if isStr x needle then i else arrayIndexOf needle r (i + 1)%Z
  end.

(** [recv.indexOf(needle)] *)
Definition callIndexOf (recv : value) (needle : string) : completion Z :=
  match recv with
  | VStr s => Return (indexOf needle s)
  | VArr l => Return (arrayIndexOf needle l 0)
  | VUndefined | VNull => noProperty "indexOf"
  | _ => notAFunction "indexOf"
  end.

(** [recv.toUpperCase()] *)
Definition callToUpperCase (recv : value) : completion string :=
  match recv with
  | VStr s => Return (toUpperCase s)
  | VUndefined | VNull => noProperty "toUpperCase"
  | _ => notAFunction "toUpperCase"
  end.

(** [recv.split(sep)] *)
Definition callSplit (recv : value) (sep : string) : completion (list string) :=
  match recv with
  | VStr s => Return (split sep s)
  | VUndefined | VNull => noProperty "split"
  | _ => notAFunction "split"
  end.

(** [recv.slice(from, to)]: strings and arrays have it. *)
Definition callSlice (recv : value) (from to : nat) : completion value :=
  match recv with
  | VStr s => Return (VStr (slice from to s))
  | VArr l => Return (VArr (take (to - from) (drop from l)))
  | VUndefined | VNull => noProperty "slice"
  | _ => notAFunction "slice"
  end.

(** [parts[i]] on an array of strings. *)
Definition at_index (parts : list string) (i : nat) : value :=
  match parts !! i with
  | Some s => VStr s
  | None => VUndefined
  end.

(** The own enumerable properties [{...v}] copies. *)
Definition spread (v : value) : gmap string value :=
  match v with
  | VObj props => props
  | VStr s => list_to_map (imap (fun i c => (pretty i, VStr c)) (chars s))
  | VArr l => list_to_map (imap (fun i x => (pretty i, x)) l)
  | _ => empty
  end.

(** *** Numbers *)

Definition hexDigit (d : N) : ascii :=
  match d with
  | 0 => "0" | 1 => "1" | 2 => "2" | 3 => "3" | 4 => "4" | 5 => "5"
  | 6 => "6" | 7 => "7" | 8 => "8" | 9 => "9" | 10 => "a" | 11 => "b"
  | 12 => "c" | 13 => "d" | 14 => "e" | _ => "f"
  end%char%N.

Fixpoint toString16_go (fuel : nat) (n : N) (acc : string) : string :=
  let acc' := String (hexDigit (n mod 16)) acc in
  match fuel with
  | O => acc'
  | S fuel' => if (n / 16 =? 0)%N then acc' else toString16_go fuel' (n / 16) acc'
  end.

(** [n.toString(16)] for a natural number: a digit takes four bits, so the
    bit size of [n] is fuel enough. *)
Definition toString16 (n : N) : string := toString16_go (N.size_nat n) n "".

End Js.
Import Js.

(** ** Directory records

    A search entry of ldapjs: [object] is the decoded attribute map (any
    value, the decoders test its shape), [attributes] is [Some] of the
    attribute list when [Array.isArray(entry.attributes)] holds and [None]
    when the field is absent or is anything but an array, [objectName] is the
    distinguished name.  An attribute carries its [type] and its raw values,
    one [Buffer] (a byte sequence) per value. *)

Record Attribute : Type := {
  type : string;
  buffers : list (list byte)
}.

Record SearchEntry : Type := {
  object : value;
  attributes : option (list Attribute);
  objectName : value
}.

(** The object [createUserObj] returns. *)
Inductive UserObj : Type :=
| User (groups : list value) (phone name mail : value) (guid : string) (dn : value).

(** [new Date(iso)], kept as the text it is built from. *)
Inductive JsDate : Type :=
| NewDate (iso : string).

(** ** Static functions *)

Definition resolveBindError (error : value) : completion string :=
  do* name := get error "name" in
  if negb (isStr name "InvalidCredentialsError") then Return "Unknown Auth Error"
  else
    do* lde_message := get error "lde_message" in
    if negb (truthy lde_message) then Return "Unknown Auth Error"
    else
      do* at775 := callIndexOf lde_message "775" in
      if negb (at775 =? -1)%Z then Return "Account is locked out"
      else Return "Invalid username or password".

Definition resolveGroups (entry : SearchEntry) : completion (list value) :=
  if negb (String.eqb (typeof (object entry)) "object")
  then Throw (newError "Error" "Invalid entry, entry.object must be an object")
  else
    do* memberOf := get (object entry) "memberOf" in
    match memberOf with
    | VUndefined => Return []
    | VStr s =>
        (* If only 1 OU ldapjs returns it as a string *)
        Return (map (fun item => at_index (split "CN=" item) 1)
                  (List.filter (fun item => negb (indexOf "CN=" item =? -1)%Z)
                     (split "," s)))
    | VArr l =>
        mapM (fun group =>
                do* parts := callSplit group "," in
                do* names := callSplit (at_index parts 0) "CN=" in
                Return (at_index names 1)) l
    | _ => Return []
    end.

Definition guidFormat : list (list nat) :=
  [[3; 2; 1; 0]; [5; 4]; [7; 6]; [8; 9]; [10; 11; 12; 13; 14; 15]]%nat.

(** The body of the inner [map] of [resolveGUID]: an index past the end of
    the buffer reads [undefined], which is not below 16 and has no
    [toString]. *)
Definition byteString (binaryGUID : list byte) (i : nat) : completion string :=
  match binaryGUID !! i with
  | None => noProperty "toString"
  | Some b =>
      let n := Byte.to_N b in
      Return (if (n <? 16)%N then "0" +:+ toString16 n else toString16 n)
  end.

(** [attribute => attribute.type === 'objectGUID'] *)
Definition isObjectGUID (attribute : Attribute) : bool :=
  String.eqb (type attribute) "objectGUID".

Definition resolveGUID (entry : SearchEntry) : completion string :=
  match attributes entry with
  | None => Throw (newError "Error" "Attributes must be an array")
  | Some attrs =>
      match List.find isObjectGUID attrs with
      | None => noProperty "buffers"
      | Some attribute =>
          match buffers attribute !! 0%nat with
          | None => noProperty "3"
          | Some binaryGUID =>
              do* guidArray :=
                mapM (fun part =>
                        do* stringPart := mapM (byteString binaryGUID) part in
                        Return (String.concat "" stringPart)) guidFormat in
              Return (String.concat "-" guidArray)
          end
      end
  end.

(** The guard [typeof entry !== 'object'] of the source always passes here:
    an [entry] of type [SearchEntry] is an object. The fields of the literal
    are evaluated in the order they are written, so a throw of
    [resolveGroups] comes before one of [resolveGUID]. *)
Definition createUserObj (entry : SearchEntry) : completion UserObj :=
  do* groups := resolveGroups entry in
  do* telephoneNumber := get (object entry) "telephoneNumber" in
  do* name := get (object entry) "name" in
  do* mail := get (object entry) "mail" in
  do* guid := resolveGUID entry in
  Return (User groups (or_else telephoneNumber (VStr "")) (or_else name (VStr ""))
            (or_else mail (VStr "")) guid (objectName entry)).

Definition detectLogonType (username : value) : completion string :=
  do* at_sign := callIndexOf username "@" in
  if negb (at_sign =? -1)%Z then Return "userPrincipalName"
  else
    do* upper_name := callToUpperCase username in
    if negb (indexOf "DC=" upper_name =? -1)%Z then Return "distinguishedName"
    else Return "sAMAccountName".

Definition convertToDate (date : value) : completion JsDate :=
  do* year := callSlice date 0 4 in
  do* month := callSlice date 4 6 in
  do* day := callSlice date 6 8 in
  do* hour := callSlice date 8 10 in
  do* min := callSlice date 10 12 in
  do* sec := callSlice date 12 14 in
  Return (NewDate (toStr year +:+ "-" +:+ toStr month +:+ "-" +:+ toStr day +:+ "T"
                    +:+ toStr hour +:+ ":" +:+ toStr min +:+ ":" +:+ toStr sec +:+ ".000Z")).

Definition cleanSama (sAMA : value) : completion value :=
  do* parts := callSplit sAMA "\" in
  Return (at_index parts (length parts - 1)).

(** The entry of test/test.js. *)
Definition testGUID : list byte :=
  [x10; xe7; xd4; x17; x4d; x62; x78; x49; x90; x0b; x85; x49; xcb; x75; x36; x99]%byte.

Definition testEntry : SearchEntry := {|
  object := VObj (list_to_map [
    ("memberOf", VArr [VStr "CN=Group1,OU=Test,DC=domain,DC=com";
                       VStr "CN=Group2,OU=Test,OU=Test2,DC=domain,DC=com"]);
    ("mail", VStr "test@domain.com");
    ("telephoneNumber", VStr "+1 12312312324");
    ("name", VStr "Test User")]);
  attributes := Some [ {| type := "objectGUID"; buffers := [testGUID] |} ];
  objectName := VUndefined
|}.

(** ** The ldapjs client and the directory behind it

    What the class does to its client is recorded as the list of calls it
    makes, in order.  What the directory answers is given by a [Directory]:
    the [err] argument ldapjs hands to the callback of [client.bind] (falsy
    when the bind is accepted), the events of the search response (the
    entries followed by ['end'], or ['error']), and the ['error'] events the
    client itself emits while the operation runs (connection faults).  A
    [Directory] describes the runs in which ldapjs answers: it calls the
    callback of [client.bind], and the response of the search ends or fails.
    The runs in which it does not (no callback after a connection fault, a
    response that never ends) leave the promise of the operation pending and
    are not covered; nor is the case where ldapjs hands an error to the
    callback of [client.search] itself: there [_search] evaluates
    [reject(err)] with [err] unbound. *)

Inductive call : Type :=
| CreateClient
| ClientBind (username password : value)
| ClientSearch (base : value) (options : gmap string value)
| ClientUnbind.

Inductive SearchOutcome : Type :=
| SearchEnd (records : list SearchEntry)
| SearchError (error : value).

Record Directory : Type := {
  bind_error : value;
  search_result : SearchOutcome;
  client_errors : list value
}.

(** A computation that calls the client: the calls made, and how it ended.
    Calls made before a throw stay made. *)
Definition session (A : Type) : Type := (list call * completion A)%type.

Definition sret {A} (a : A) : session A := ([], Return a).

Definition lift {A} (m : completion A) : session A := ([], m).

Definition sbind {A B} (m : session A) (k : A -> session B) : session B :=
  match m with
  | (calls, Return a) => let '(calls', r) := k a in (calls ++ calls', r)
  | (calls, Throw e) => (calls, Throw e)
  end.

Definition try_catch {A} (body : session A) (handler : value -> session A) : session A :=
  match body with
  | (calls, Return a) => (calls, Return a)
  | (calls, Throw e) => let '(calls', r) := handler e in (calls ++ calls', r)
  end.

Definition client (c : call) : session unit := ([c], Return tt).

Notation "'run*' x ':=' m 'in' k" := (sbind m (fun x => k))
  (at level 10, x name, m at level 100, k at level 200).
Notation "'run*' ' pat ':=' m 'in' k" := (sbind m (fun x => match x with pat => k end))
  (at level 10, pat pattern, m at level 100, k at level 200).

(** The object every operation resolves with: [{success: true, ...}] with the
    payload, or [{success: false, message, error}]. *)
Inductive Result (P : Type) : Type :=
| Success (payload : P)
| Failure (message : string) (error : value).
Arguments Success {P} payload.
Arguments Failure {P} message error.

Definition success {P} (r : Result P) : bool :=
  match r with Success _ => true | Failure _ _ => false end.

Inductive GroupObj : Type :=
| Group (name dn : value) (guid : string) (description : value) (created changed : JsDate).

Inductive GroupsPayload : Type :=
| GroupNames (names : list value)
| GroupDetails (details : list GroupObj).

Inductive UsersPayload : Type :=
| Entries (records : list SearchEntry)
| UserObjs (users : list UserObj).

(** ** The class *)

Record ActiveDirectory : Type := {
  base : string;
  searchOptions : gmap string value;
  ldapjsSettings : gmap string value
}.

Definition constructor (url : value) (suffix base : string)
    (searchOptions : gmap string value) (idleTimeout tlsOptions : value) : ActiveDirectory := {|
  base := if negb (String.length suffix =? 0)%nat && (String.length base =? 0)%nat
          then suffix else base;
  searchOptions := searchOptions;
  ldapjsSettings :=
    list_to_map [("url", url); ("idleTimeout", idleTimeout); ("tlsOptions", tlsOptions)]
|}.

Section Methods.

Variable this : ActiveDirectory.
Variable dir : Directory.

(** [client.on('error', error => { client.unbind(); return {...} })]: the
    listener runs once for each ['error'] event the client emits, and the
    emitter drops what a listener returns. *)
Definition on_error : session unit :=
  (map (fun _ => ClientUnbind) (client_errors dir), Return tt).

Definition credentialsError : value :=
  VObj (list_to_map [
    ("name", VStr "InvalidCredentialsError");
    ("message", VStr "Usrname and password must be a string");
    ("lde_message", VStr "Usrname and password must be a string")]).

Definition _bind (username password : value) : session unit :=
  if negb (String.eqb (typeof username) "string")
     || negb (String.eqb (typeof password) "string")
  then lift (Throw credentialsError)
  else
    run* _ := client (ClientBind username password) in
    if truthy (bind_error dir) then lift (Throw (bind_error dir)) else sret tt.

Definition _search (customBase : value) (search : gmap string value)
    : session (list SearchEntry) :=
  let base :=
    if String.eqb (typeof customBase) "string" && truthy customBase
    then customBase else VStr (base this) in
  run* _ := client (ClientSearch base search) in
  match search_result dir with
  | SearchEnd accumulator => sret accumulator
  | SearchError error => lift (Throw error)
  end.

(** The [catch] clause the three operations share. *)
Definition failure {P} (err : value) : session (Result P) :=
  run* message := lift (resolveBindError err) in
  sret (Failure message err).

Definition loginUser (username password customBase customSearch : value)
    : session (Result (option SearchEntry)) :=
  try_catch
    (run* _ := client CreateClient in
     run* usernameType := lift (detectLogonType username) in
     run* searchUser :=
       (if String.eqb usernameType "sAMAccountName"
        then lift (cleanSama username) else sret username) in
     let search :=
       union (spread customSearch) (* Overrides any other search options *)
         (<["filter" := VStr ("(" +:+ usernameType +:+ "=" +:+ toStr searchUser +:+ ")")]>
            (searchOptions this)) in
     run* _ := on_error in
     run* _ := _bind username password in
     run* records := _search customBase search in
     (* We only expect 1 user acct *)
     sret (Success (records !! 0%nat)))
    failure.

Definition detailedAttributes : value :=
  VArr [VStr "name"; VStr "dn"; VStr "objectGUID"; VStr "description";
        VStr "whenCreated"; VStr "whenChanged"].

Definition getDetails (records : list SearchEntry) : completion (list GroupObj) :=
  mapM (fun entry =>
          do* name := get (object entry) "name" in
          do* dn := get (object entry) "dn" in
          do* guid := resolveGUID entry in
          do* description := get (object entry) "description" in
          do* whenCreated := get (object entry) "whenCreated" in
          do* created := convertToDate whenCreated in
          do* whenChanged := get (object entry) "whenChanged" in
          do* changed := convertToDate whenChanged in
          Return (Group name dn guid description created changed)) records.

(** For backwards compatability until v2: a boolean in the place of the
    base is the flag. *)
Definition flag_shim (customBase flag : value) : value :=
  if isUndefined flag && String.eqb (typeof customBase) "boolean"
  then customBase else flag.

Definition getAllGroups (username password customBase detailed : value)
    : session (Result GroupsPayload) :=
  try_catch
    (let detailed := flag_shim customBase detailed in
     let attributes := if truthy detailed then detailedAttributes else VStr "name" in
     run* _ := client CreateClient in
     let customSearch :=
       <["attributes" := attributes]>
         (<["filter" := VStr "(objectCategory=group)"]> (searchOptions this)) in
     run* _ := on_error in
     run* _ := _bind username password in
     run* records := _search customBase customSearch in
     if truthy detailed
     then run* groups := lift (getDetails records) in
          sret (Success (GroupDetails groups))
     else run* groups := lift (mapM (fun entry => get (object entry) "name") records) in
          sret (Success (GroupNames groups)))
    failure.

Definition getAllUsers (username password customBase formatted : value)
    : session (Result UsersPayload) :=
  try_catch
    (let formatted := flag_shim customBase formatted in
     run* _ := client CreateClient in
     let customSearch :=
       <["filter" := VStr "(&(objectClass=user)(objectCategory=person))"]>
         (searchOptions this) in
     run* _ := on_error in
     run* _ := _bind username password in
     run* records := _search customBase customSearch in
     if truthy formatted
     then run* users := lift (mapM createUserObj records) in
          sret (Success (UserObjs users))
     else sret (Success (Entries records)))
    failure.

End Methods.

Definition calls {A} (s : session A) : list call := fst s.
Definition outcome {A} (s : session A) : completion A := snd s.

Definition isUnbind (c : call) : bool := match c with ClientUnbind => true | _ => false end.
Definition unbinds (l : list call) : nat := length (List.filter isUnbind l).

(** ** Vocabulary of the properties *)

(** [sub] occurs in [s]. *)
Definition contains (sub s : string) : Prop :=
  exists pre post, s = pre +:+ sub +:+ post.

(** The same as a test: [sub] starts [s], or occurs further on. *)
Fixpoint includes (sub s : string) : bool :=
  String.prefix sub s
  || match s with
     | EmptyString => false
     | String _ s' => includes sub s'
     end.

Fixpoint stake (n : nat) (s : string) : string :=
  match n, s with
  | S n', String c s' => String c (stake n' s')
  | _, _ => EmptyString
  end.

Fixpoint sdrop (n : nat) (s : string) : string :=
  match n, s with
  | S n', String _ s' => sdrop n' s'
  | _, _ => s
  end.

(** The text of [s] before the first occurrence of [sep], all of [s] when
    there is none. *)
Definition before (sep s : string) : string :=
  match String.index 0 sep s with
  | Some i => stake i s
  | None => s
  end.

(** The text of [s] after the first occurrence of [sep]. *)
Definition after (sep s : string) : option string :=
  match String.index 0 sep s with
  | Some i => Some (sdrop (i + String.length sep) s)
  | None => None
  end.

(** The group name the decoder reads off one component of a distinguished
    name: the text after the first CN= up to the next CN= or the end, and
    [undefined] when the component has no CN=. *)
Definition afterCN (component : string) : value :=
  match after "CN=" component with
  | Some rest => VStr (before "CN=" rest)
  | None => VUndefined
  end.

(** The policy of section 4.1 of the specification for [memberOf], word for
    word: a string is split on commas, the components containing CN= are
    kept and lose the prefix CN=; of each element of a sequence of strings
    the text before the first comma is taken and loses the prefix CN=; every
    other shape gives the empty sequence. *)
Definition stripCN (s : string) : string :=
  if String.prefix "CN=" s then sdrop 3 s else s.

Fixpoint allStrings (l : list value) : option (list string) :=
  match l with
  | [] => Some []
  | VStr s :: r => option_map (cons s) (allStrings r)
  | _ :: _ => None
  end.

Definition specifiedGroups (memberOf : value) : list value :=
  match memberOf with
  | VStr s =>
      map (fun c => VStr (stripCN c))
        (List.filter (fun c => negb (indexOf "CN=" c =? -1)%Z) (split "," s))
  | VArr l =>
      match allStrings l with
      | Some gs => map (fun g => VStr (stripCN (before "," g))) gs
      | None => []
      end
  | _ => []
  end.

(** A byte as two hexadecimal digits, zero-padded. *)
Definition hex2 (b : byte) : string :=
  let n := Byte.to_N b in
  String (hexDigit (n / 16)) (String (hexDigit (n mod 16)) "").

(** The canonical text of a GUID whose raw bytes are [raw]: five groups, the
    first three little-endian. *)
Definition formatGUID (raw : list byte) : string :=
  let d i := hex2 (nth i raw x00%byte) in
  d 3 +:+ d 2 +:+ d 1 +:+ d 0 +:+ "-" +:+
  d 5 +:+ d 4 +:+ "-" +:+
  d 7 +:+ d 6 +:+ "-" +:+
  d 8 +:+ d 9 +:+ "-" +:+
  d 10 +:+ d 11 +:+ d 12 +:+ d 13 +:+ d 14 +:+ d 15.

(** The raw value [resolveGUID] decodes: the first value of the first
    attribute of type objectGUID. *)
Definition rawGUID (entry : SearchEntry) (raw : list byte) : Prop :=
  exists attrs attribute,
    attributes entry = Some attrs /\
    List.find isObjectGUID attrs = Some attribute /\
    buffers attribute !! 0%nat = Some raw.

(** The error ldapjs builds for an LDAP result 49 that comes without a
    diagnostic text. *)
Definition emptyDiagnostic : gmap string value :=
  list_to_map [("name", VStr "InvalidCredentialsError"); ("lde_message", VStr "")].

(** An entry whose attribute map holds [memberOf] and nothing else. *)
Definition groupsEntry (memberOf : value) : SearchEntry := {|
  object := VObj (<["memberOf" := memberOf]> empty);
  attributes := None;
  objectName := VUndefined
|}.

(** An entry with one objectGUID value and nothing else. *)
Definition guidEntry (raw : list byte) : SearchEntry := {|
  object := VObj empty;
  attributes := Some [ {| type := "objectGUID"; buffers := [raw] |} ];
  objectName := VUndefined
|}.

(** The instance of the README, and a directory that accepts the bind and
    answers the search with [records]. *)
Definition exampleAD : ActiveDirectory :=
  constructor (VStr "ldap://192.168.1.1") "" "dc=domain,dc=local"
    (<["scope" := VStr "sub"]> empty) (VNum 3000) (VObj empty).

Definition accepting (records : list SearchEntry) : Directory := {|
  bind_error := VNull;
  search_result := SearchEnd records;
  client_errors := []
|}.

(** The options of the searches sent, and their bases. *)
Definition searchesOf (l : list call) : list (gmap string value) :=
  omap (fun c => match c with ClientSearch _ options => Some options | _ => None end) l.

Definition searchBases (l : list call) : list value :=
  omap (fun c => match c with ClientSearch base _ => Some base | _ => None end) l.

(** A configuration with a scope and a size limit, and an override that
    names all three options. *)
Definition boundedAD : ActiveDirectory :=
  constructor (VStr "ldap://192.168.1.1") "" "dc=domain,dc=local"
    (list_to_map [("scope", VStr "sub"); ("sizeLimit", VNum 10)]) (VNum 3000) (VObj empty).

Definition wideOverride : gmap string value :=
  list_to_map [("filter", VStr "(cn=jdoe)"); ("scope", VStr "base"); ("sizeLimit", VNum 0)].

(** The calls that reach the directory. *)
Definition isRequest (c : call) : bool :=
  match c with ClientBind _ _ | ClientSearch _ _ => true | _ => false end.

Definition requests (l : list call) : list call := List.filter isRequest l.

(** [detectLogonType] on a string. *)
Definition logonType (username : string) : string :=
  if includes "@" username then "userPrincipalName"
  else if includes "DC=" (toUpperCase username) then "distinguishedName"
  else "sAMAccountName".

(** The filter [loginUser] builds from a string. *)
Definition defaultFilter (username : string) : string :=
  let parts := split "\" username in
  "(" +:+ logonType username +:+ "=" +:+
  (if String.eqb (logonType username) "sAMAccountName"
   then toStr (at_index parts (length parts - 1)) else username) +:+ ")".

(** ** Vocabulary of the further properties *)

(** A text attribute as [createUserObj] reads it: the value, or the empty
    string when the attribute is missing or falsy. *)
Definition textOf (props : gmap string value) (key : string) : value :=
  match props !! key with
  | Some v => if truthy v then v else VStr ""
  | None => VStr ""
  end.

(** The digits of [toString(16)]. *)
Definition isHexChar (c : ascii) : bool :=
  negb (indexOf (String c "") "0123456789abcdef" =? -1)%Z.

Fixpoint hexString (s : string) : bool :=
  match s with
  | EmptyString => true
  | String c s' => isHexChar c && hexString s'
  end.

(** Two hexadecimal digits read back as a byte. *)
Definition unhexDigit (c : ascii) : option N :=
  match indexOf (String c "") "0123456789abcdef" with
  | Zneg _ => None
  | i => Some (Z.to_N i)
  end.

Definition unhex2 (s : string) : option byte :=
  match s with
  | String h (String l EmptyString) =>
      match unhexDigit h, unhexDigit l with
      | Some a, Some b => Byte.of_N (16 * a + b)
      | _, _ => None
      end
  | _ => None
  end.

(** The errors the decoders throw: [Error] and [TypeError] objects. *)
Definition decoderError (e : value) : Prop :=
  exists message, e = typeError message \/ e = newError "Error" message.

(** A record with one group, an empty mail, no name and no phone. *)
Definition staffEntry : SearchEntry := {|
  object := VObj (<["memberOf" := VStr "CN=Staff,DC=corp"]> (<["mail" := VStr ""]> empty));
  attributes := Some [ {| type := "objectGUID"; buffers := [testGUID] |} ];
  objectName := VStr "CN=jdoe,DC=corp"
|}.

(** How the [catch] clause of an operation ends on the error [err]. *)
Definition caught {P} (err : value) : completion (Result P) :=
  do* message := resolveBindError err in Return (Failure message err).

(** The base [_search] searches at. *)
Definition searchBase (this : ActiveDirectory) (customBase : value) : value :=
  match customBase with
  | VStr (String c s) => customBase
  | _ => VStr (base this)
  end.

(** The calls of an operation up to its bind. *)
Definition upToBind (dir : Directory) (username password : string) : list call :=
  CreateClient :: map (fun _ => ClientUnbind) (client_errors dir)
  ++ [ClientBind (VStr username) (VStr password)].

(** An error object as ldapjs hands it over: a diagnostic that is a string,
    or none. *)
Definition ldapjsError (e : value) : Prop :=
  exists props,
    e = VObj props
    /\ (props !! "lde_message" = None \/ exists diag, props !! "lde_message" = Some (VStr diag)).

(** The [name] attribute of a record. *)
Definition nameOf (entry : SearchEntry) : value :=
  match object entry with
  | VObj props => default VUndefined (props !! "name")
  | _ => VUndefined
  end.

(** The course the three operations share once the user name and the
    password are strings: create the client, listen, bind, search, then
    [post] on the records, with the [catch] clause around it all. *)
Definition course {P} (this : ActiveDirectory) (dir : Directory) (u p : string)
    (customBase : value) (search : gmap string value)
    (post : list SearchEntry -> completion (Result P)) : session (Result P) :=
  try_catch
    (run* _ := client CreateClient in
     run* _ := on_error dir in
     run* _ := _bind dir (VStr u) (VStr p) in
     run* records := _search this dir customBase search in
     lift (post records))
    failure.

(** An instance whose configuration holds a filter of its own. *)
Definition filteredAD : ActiveDirectory :=
  constructor (VStr "ldap://192.168.1.1") "" "dc=domain,dc=local"
    (list_to_map [("scope", VStr "one"); ("filter", VStr "(objectClass=computer)")])
    (VNum 3000) (VObj empty).

(** A directory that rejects the bind with [err], and one that accepts it
    and fails the search with [err]. *)
Definition rejecting (err : value) : Directory := {|
  bind_error := err;
  search_result := SearchEnd [];
  client_errors := []
|}.

Definition failing (err : value) : Directory := {|
  bind_error := VNull;
  search_result := SearchError err;
  client_errors := []
|}.

Definition lockedOut : value :=
  VObj (list_to_map [("name", VStr "InvalidCredentialsError");
                     ("lde_message", VStr "80090308: LdapErr: DSID-0C09042F, data 775, v2580")]).

Definition noSuchObject : value :=
  VObj (list_to_map [("name", VStr "NoSuchObjectError");
                     ("lde_message", VStr "0000208D: NameErr: DSID-03100238, problem 2001")]).

(** A group record with a name and nothing else. *)
Definition namedGroup (name : string) : SearchEntry := {|
  object := VObj (<["name" := VStr name]> empty);
  attributes := Some [ {| type := "objectGUID"; buffers := [testGUID] |} ];
  objectName := VStr ("CN=" +:+ name)
|}.

(** A group record as the detailed listing needs it: a name, a description
    and the two timestamps, next to the objectGUID. *)
Definition datedGroup : SearchEntry := {|
  object := VObj (list_to_map [
    ("name", VStr "Staff");
    ("dn", VStr "CN=Staff,DC=domain,DC=local");
    ("description", VStr "All staff");
    ("whenCreated", VStr "20180314093000.0Z");
    ("whenChanged", VStr "20190102120500.0Z")]);
  attributes := Some [ {| type := "objectGUID"; buffers := [testGUID] |} ];
  objectName := VStr "CN=Staff,DC=domain,DC=local"
|}.

(** ** Facts about strings *)

Section StringFacts.

Lemma append_cons (c : ascii) (s t : string) : String c s +:+ t = String c (s +:+ t).
Proof. reflexivity. Qed.

Lemma append_nil_l (s : string) : "" +:+ s = s.
Proof. reflexivity. Qed.

Lemma append_nil_r (s : string) : s +:+ "" = s.
Proof.
  induction s as [|c s IH]; [reflexivity|]. now rewrite append_cons, IH.
Qed.

Lemma append_assoc (a b c : string) : (a +:+ b) +:+ c = a +:+ b +:+ c.
Proof.
  induction a as [|x a IH]; [reflexivity|]. now rewrite !append_cons, IH.
Qed.

Lemma prefix_cons (a b : ascii) (p s : string) :
  String.prefix (String a p) (String b s) = if decide (a = b) then String.prefix p s else false.
Proof.
  change (String.prefix (String a p) (String b s))
    with (if ascii_dec a b then String.prefix p s else false).
  destruct (ascii_dec a b), (decide (a = b)); congruence.
Qed.

Lemma prefix_nil (s : string) : String.prefix "" s = true.
Proof. now destruct s. Qed.

Lemma prefix_append (p r : string) : String.prefix p (p +:+ r) = true.
Proof.
  induction p as [|a p IH]; [apply prefix_nil|].
  rewrite append_cons, prefix_cons. now destruct (decide (a = a)).
Qed.

Lemma prefix_split (p s : string) :
  String.prefix p s = true -> s = p +:+ sdrop (String.length p) s.
Proof.
  revert s; induction p as [|a p IH]; intros s H; [now destruct s|].
  destruct s as [|b s]; [discriminate H|].
  rewrite prefix_cons in H. destruct (decide (a = b)) as [->|]; [|discriminate].
  simpl sdrop. rewrite append_cons. f_equal. now apply IH.
Qed.

Lemma sdrop_append (p r : string) : sdrop (String.length p) (p +:+ r) = r.
Proof. induction p; [reflexivity|]. now rewrite append_cons. Qed.

Lemma index_cons (sub : string) (c : ascii) (s : string) :
  String.index 0 sub (String c s) =
  if String.prefix sub (String c s) then Some 0%nat
  else option_map S (String.index 0 sub s).
Proof. reflexivity. Qed.

Lemma index_nil (sub : string) :
  String.index 0 sub "" = if String.prefix sub "" then Some 0%nat else None.
Proof. now destruct sub. Qed.

Lemma index_found (sub s : string) (i : nat) :
  String.index 0 sub s = Some i -> s = stake i s +:+ sub +:+ sdrop (i + String.length sub) s.
Proof.
  revert i; induction s as [|c s IH]; intros i.
  - rewrite index_nil. destruct sub; [|discriminate]. now intros [= <-].
  - rewrite index_cons. destruct (String.prefix sub (String c s)) eqn:Hp.
    + intros [= <-]. simpl stake. rewrite append_nil_l. now apply prefix_split.
    + destruct (String.index 0 sub s) as [j|]; [|discriminate].
      intros [= <-]. simpl stake. simpl sdrop. rewrite append_cons. f_equal. now apply IH.
Qed.

Lemma index_occurs (sub pre post : string) :
  String.index 0 sub (pre +:+ sub +:+ post) <> None.
Proof.
  induction pre as [|c pre IH].
  - rewrite append_nil_l. pose proof (prefix_append sub post) as Hp.
    destruct (sub +:+ post); [rewrite index_nil | rewrite index_cons];
      rewrite Hp; discriminate.
  - rewrite append_cons, index_cons. destruct (String.prefix sub _); [discriminate|].
    destruct (String.index 0 sub _); [discriminate | contradiction].
Qed.

Lemma index_prefix (sub r : string) : String.index 0 sub (sub +:+ r) = Some 0%nat.
Proof.
  pose proof (prefix_append sub r) as Hp.
  destruct (sub +:+ r); [rewrite index_nil | rewrite index_cons]; now rewrite Hp.
Qed.

(** [indexOf] finds what is there. *)
Lemma indexOf_contains (sub s : string) :
  indexOf sub s <> (-1)%Z <-> contains sub s.
Proof.
  unfold indexOf, contains. split.
  - destruct (String.index 0 sub s) as [i|] eqn:E; [|congruence].
    intros _. eauto using index_found.
  - intros (pre & post & ->). pose proof (index_occurs sub pre post).
    destruct (String.index 0 sub _); [lia | contradiction].
Qed.

Lemma includes_index (sub s : string) :
  includes sub s = false <-> String.index 0 sub s = None.
Proof.
  induction s as [|c s IH].
  - rewrite index_nil. cbn [includes]. rewrite orb_false_r.
    destruct (String.prefix sub ""); split; congruence.
  - rewrite index_cons. cbn [includes].
    destruct (String.prefix sub (String c s)); cbn [orb]; [split; discriminate|].
    rewrite IH. destruct (String.index 0 sub s); cbn [option_map]; split; congruence.
Qed.

Lemma includes_indexOf (sub s : string) :
  includes sub s = false <-> indexOf sub s = (-1)%Z.
Proof.
  rewrite includes_index. unfold indexOf.
  destruct (String.index 0 sub s); split; (congruence || lia).
Qed.

Lemma includes_contains (sub s : string) :
  includes sub s = true <-> contains sub s.
Proof.
  rewrite <- indexOf_contains, <- includes_indexOf.
  destruct (includes sub s); split; congruence.
Qed.

Lemma indexOf_absent (sub s : string) :
  indexOf sub s = (-1)%Z <-> ~ contains sub s.
Proof.
  rewrite <- indexOf_contains. destruct (decide (indexOf sub s = (-1)%Z)); tauto.
Qed.

Lemma splitOn_skip (sep pre rest cur : string) :
  splitOn sep (pre +:+ rest) (String.length pre) cur = splitOn sep rest 0 cur.
Proof.
  induction pre as [|c pre IH]; [reflexivity|]. rewrite append_cons. exact IH.
Qed.

Lemma splitOn_cons (sep : string) (c : ascii) (s cur : string) :
  splitOn sep (String c s) 0 cur =
  if String.prefix sep (String c s)
  then cur :: splitOn sep s (String.length sep - 1) ""
  else splitOn sep s 0 (cur +:+ String c "").
Proof. reflexivity. Qed.

Lemma splitOn_found (a : ascii) (sep' s cur : string) (i : nat) :
  String.index 0 (String a sep') s = Some i ->
  splitOn (String a sep') s 0 cur =
  (cur +:+ stake i s) :: splitOn (String a sep') (sdrop (i + S (String.length sep')) s) 0 "".
Proof.
  revert i cur; induction s as [|c s IH]; intros i cur.
  - discriminate.
  - rewrite index_cons, splitOn_cons.
    destruct (String.prefix (String a sep') (String c s)) eqn:Hp.
    + intros [= <-]. simpl stake. rewrite append_nil_r. f_equal.
      apply prefix_split in Hp. rewrite append_cons in Hp. simpl in Hp.
      injection Hp as _ Hs. simpl. rewrite Nat.sub_0_r. rewrite Hs at 1.
      apply splitOn_skip.
    + destruct (String.index 0 (String a sep') s) as [j|] eqn:Hj; [|discriminate].
      intros [= <-]. rewrite (IH j) by reflexivity.
      simpl stake. simpl sdrop. now rewrite append_assoc, append_cons, append_nil_l.
Qed.

Lemma splitOn_absent (a : ascii) (sep' s cur : string) :
  String.index 0 (String a sep') s = None ->
  splitOn (String a sep') s 0 cur = [cur +:+ s].
Proof.
  revert cur; induction s as [|c s IH]; intros cur.
  - intros _. simpl. now rewrite append_nil_r.
  - rewrite index_cons, splitOn_cons.
    destruct (String.prefix (String a sep') (String c s)); [discriminate|].
    destruct (String.index 0 (String a sep') s); [discriminate|].
    intros _. rewrite IH by reflexivity.
    now rewrite append_assoc, append_cons, append_nil_l.
Qed.

(** The first piece of a split is the text before the first separator. *)
Lemma split_first (a : ascii) (sep' s : string) :
  split (String a sep') s !! 0%nat = Some (before (String a sep') s).
Proof.
  unfold split, before. destruct (String.index 0 (String a sep') s) as [i|] eqn:E.
  - now rewrite (splitOn_found _ _ _ _ _ E).
  - now rewrite (splitOn_absent _ _ _ _ E).
Qed.

(** The second piece is the first piece of what follows that separator. *)
Lemma split_second (a : ascii) (sep' s : string) :
  split (String a sep') s !! 1%nat = before (String a sep') <$> after (String a sep') s.
Proof.
  unfold after. destruct (String.index 0 (String a sep') s) as [i|] eqn:E.
  - unfold split. rewrite (splitOn_found _ _ _ _ _ E).
    exact (split_first a sep' _).
  - unfold split. now rewrite (splitOn_absent _ _ _ _ E).
Qed.

End StringFacts.

(** ** resolveGUID *)

Section GUID.

Lemma byteString_hex2 (raw : list byte) (i : nat) (b : byte) :
  raw !! i = Some b -> byteString raw i = Return (hex2 b).
Proof.
  intros H. unfold byteString. rewrite H. f_equal. destruct b; reflexivity.
Qed.

(** Sixteen bytes or more decode, from the first sixteen. *)
Lemma resolveGUID_decodes (entry : SearchEntry) (raw : list byte) :
  rawGUID entry raw -> (16 <= length raw)%nat ->
  resolveGUID entry = Return (formatGUID raw).
Proof.
  intros (attrs & attribute & Ha & Hf & Hb) Hlen.
  unfold resolveGUID. rewrite Ha, Hf, Hb.
  do 16 (destruct raw as [|? raw]; [simpl in Hlen; lia|]).
  cbn [mapM guidFormat cbind].
  repeat (erewrite byteString_hex2 by reflexivity).
  reflexivity.
Qed.

(** Fewer than sixteen bytes throw, at the first index past the end. *)
Lemma resolveGUID_short (entry : SearchEntry) (raw : list byte) :
  rawGUID entry raw -> (length raw < 16)%nat ->
  exists e, resolveGUID entry = Throw e.
Proof.
  intros (attrs & attribute & Ha & Hf & Hb) Hlen.
  unfold resolveGUID. rewrite Ha, Hf, Hb.
  do 16 (destruct raw as [|? raw]; [eexists; reflexivity|]).
  simpl in Hlen; lia.
Qed.

End GUID.

(** C7. For every record whose objectGUID value is the sixteen bytes
    b0 ... b15, [resolveGUID] returns the bytes in the order 3 2 1 0, 5 4,
    7 6, 8 9, 10 ... 15, each as two zero-padded hexadecimal digits, the five
    groups joined by a dash; the reference bytes of the test suite give
    17d4e710-624d-4978-900b-8549cb753699. *)
Theorem resolveGUID_permutes_and_encodes
    (entry : SearchEntry) (b0 b1 b2 b3 b4 b5 b6 b7 b8 b9 b10 b11 b12 b13 b14 b15 : byte) :
  rawGUID entry [b0; b1; b2; b3; b4; b5; b6; b7; b8; b9; b10; b11; b12; b13; b14; b15] ->
  resolveGUID entry =
    Return (hex2 b3 +:+ hex2 b2 +:+ hex2 b1 +:+ hex2 b0 +:+ "-" +:+
            hex2 b5 +:+ hex2 b4 +:+ "-" +:+
            hex2 b7 +:+ hex2 b6 +:+ "-" +:+
            hex2 b8 +:+ hex2 b9 +:+ "-" +:+
            hex2 b10 +:+ hex2 b11 +:+ hex2 b12 +:+ hex2 b13 +:+ hex2 b14 +:+ hex2 b15)
  /\ resolveGUID testEntry = Return "17d4e710-624d-4978-900b-8549cb753699".
Proof.
  intros H. split; [|reflexivity].
  rewrite (resolveGUID_decodes entry _ H) by (simpl; lia). reflexivity.
Qed.

Lemma resolveGUID_permutes_and_encodes_witness :
  rawGUID testEntry testGUID /\
  resolveGUID testEntry = Return "17d4e710-624d-4978-900b-8549cb753699".
Proof.
  assert (H : rawGUID testEntry testGUID).
  { exists [ {| type := "objectGUID"; buffers := [testGUID] |} ],
      {| type := "objectGUID"; buffers := [testGUID] |}.
    repeat split; reflexivity. }
  split; [exact H|].
  exact (proj1 (resolveGUID_permutes_and_encodes testEntry
    x10 xe7 xd4 x17 x4d x62 x78 x49 x90 x0b x85 x49 xcb x75 x36 x99 H)).
Defined.

(** C3, as the code has it. [resolveGUID] throws exactly when the attributes
    field is absent or not an array, or no attribute has the type objectGUID,
    or that attribute has no raw value, or its raw value has fewer than
    sixteen bytes. A raw value of sixteen bytes or more is decoded from its
    first sixteen bytes. *)
Theorem resolveGUID_throws_iff (entry : SearchEntry) :
  ((exists e, resolveGUID entry = Throw e) <->
   (attributes entry = None
    \/ (exists attrs, attributes entry = Some attrs /\ List.find isObjectGUID attrs = None)
    \/ (exists attrs attribute,
          attributes entry = Some attrs /\ List.find isObjectGUID attrs = Some attribute /\
          buffers attribute = [])
    \/ (exists raw, rawGUID entry raw /\ (length raw < 16)%nat)))
  /\ (forall raw, rawGUID entry raw -> (16 <= length raw)%nat ->
       resolveGUID entry = Return (formatGUID (take 16 raw))).
Proof.
  split.
  - split.
    + intros [e He].
      destruct (attributes entry) as [attrs|] eqn:Ha; [|now left].
      destruct (List.find isObjectGUID attrs) as [attribute|] eqn:Hf;
        [|right; left; eauto].
      destruct (buffers attribute) as [|raw rest] eqn:Hb;
        [right; right; left; eauto 6|].
      right; right; right. exists raw.
      assert (Hraw : rawGUID entry raw).
      { exists attrs, attribute. now rewrite Hb. }
      split; [exact Hraw|].
      destruct (decide (length raw < 16)%nat) as [|Hge]; [assumption|].
      rewrite (resolveGUID_decodes entry raw Hraw) in He by lia. discriminate.
    + unfold resolveGUID.
      intros [Ha | [(attrs & Ha & Hf) | [(attrs & attribute & Ha & Hf & Hb) | (raw & Hraw & Hlen)]]].
      * rewrite Ha. eexists; reflexivity.
      * rewrite Ha, Hf. eexists; reflexivity.
      * rewrite Ha, Hf, Hb. eexists; reflexivity.
      * exact (resolveGUID_short entry raw Hraw Hlen).
  - intros raw Hraw Hlen. rewrite (resolveGUID_decodes entry raw Hraw Hlen).
    do 16 (destruct raw as [|? raw]; [simpl in Hlen; lia|]). reflexivity.
Qed.

Lemma resolveGUID_throws_iff_witness :
  (exists e, resolveGUID (guidEntry [x10; xe7; xd4]%byte) = Throw e) /\
  resolveGUID (guidEntry (testGUID ++ [xff; xff]%byte)) = Return (formatGUID testGUID).
Proof.
  assert (Hraw : forall raw, rawGUID (guidEntry raw) raw).
  { intros raw. exists [ {| type := "objectGUID"; buffers := [raw] |} ],
      {| type := "objectGUID"; buffers := [raw] |}. repeat split; reflexivity. }
  split.
  - apply (proj1 (resolveGUID_throws_iff _)). right; right; right.
    exists [x10; xe7; xd4]%byte. split; [apply Hraw | simpl; lia].
  - change (formatGUID testGUID)
      with (formatGUID (take 16 (testGUID ++ [xff; xff]%byte))).
    apply (proj2 (resolveGUID_throws_iff _) _ (Hraw _)). simpl; lia.
Defined.

(** C3, as the spec words it, fails: a raw value of seventeen bytes is not an
    error. *)
Lemma resolveGUID_seventeen_bytes_decode :
  rawGUID (guidEntry (testGUID ++ [x00]%byte)) (testGUID ++ [x00]%byte) /\
  length (testGUID ++ [x00]%byte) <> 16%nat /\
  resolveGUID (guidEntry (testGUID ++ [x00]%byte)) =
    Return "17d4e710-624d-4978-900b-8549cb753699".
Proof.
  split; [|split; [discriminate | reflexivity]].
  eexists _, _. repeat split; reflexivity.
Qed.

(** ** resolveBindError *)

(** C8, as the code has it. [resolveBindError] answers with one of three
    strings and no other: Unknown Auth Error when the name of the error is
    not InvalidCredentialsError or when lde_message is absent or empty;
    otherwise, for a diagnostic string, Account is locked out when it
    contains 775 and Invalid username or password when it does not. *)
Theorem resolveBindError_cases (error : value) :
  (forall s, resolveBindError error = Return s ->
     s = "Unknown Auth Error" \/ s = "Account is locked out"
     \/ s = "Invalid username or password")
  /\ (forall name, get error "name" = Return name ->
       name <> VStr "InvalidCredentialsError" ->
       resolveBindError error = Return "Unknown Auth Error")
  /\ (forall diag, get error "lde_message" = Return diag ->
       diag = VUndefined \/ diag = VStr "" ->
       resolveBindError error = Return "Unknown Auth Error")
  /\ (forall diag, get error "name" = Return (VStr "InvalidCredentialsError") ->
       get error "lde_message" = Return (VStr diag) -> diag <> "" ->
       (contains "775" diag -> resolveBindError error = Return "Account is locked out")
       /\ (~ contains "775" diag ->
           resolveBindError error = Return "Invalid username or password")).
Proof.
  unfold resolveBindError. repeat split.
  - intros s. unfold cbind. repeat case_match; intros [= <-]; tauto.
  - intros name -> Hname. simpl.
    destruct name as [| | | |n| |]; try reflexivity.
    simpl. destruct (String.eqb_spec n "InvalidCredentialsError"); [congruence | reflexivity].
  - intros diag Hd Hfalsy.
    destruct (get error "name") as [name|e] eqn:Hn.
    + simpl. destruct (isStr name _); [|reflexivity]. simpl. rewrite Hd. simpl.
      now destruct Hfalsy as [-> | ->].
    + destruct error; discriminate.
  - intros Hin. rewrite H, H0. simpl.
    destruct (String.eqb_spec diag ""); [contradiction|]. simpl.
    apply indexOf_contains in Hin. now destruct (Z.eqb_spec (indexOf "775" diag) (-1)).
  - intros Hout. rewrite H, H0. simpl.
    destruct (String.eqb_spec diag ""); [contradiction|]. simpl.
    apply indexOf_absent in Hout. now rewrite Hout.
Qed.

Lemma resolveBindError_cases_witness :
  resolveBindError
    (VObj (list_to_map [("name", VStr "InvalidCredentialsError");
                        ("lde_message", VStr "80090308: LdapErr: DSID-0C09042F, data 775, v2580")]))
    = Return "Account is locked out"
  /\ resolveBindError (VObj emptyDiagnostic) = Return "Unknown Auth Error"
  /\ resolveBindError (VStr "ergrughusi") = Return "Unknown Auth Error".
Proof.
  split; [|split].
  - eapply (proj2 (proj2 (proj2 (resolveBindError_cases _)))); try reflexivity.
    + discriminate.
    + now exists "80090308: LdapErr: DSID-0C09042F, data ", ", v2580".
  - eapply (proj1 (proj2 (proj2 (resolveBindError_cases _)))); [reflexivity | now right].
  - eapply (proj1 (proj2 (resolveBindError_cases _))); [reflexivity | discriminate].
Defined.

(** C8, as the spec words it, fails: here the name is the invalid-credentials
    one, lde_message is present and does not contain 775, and the answer is
    not Invalid username or password. *)
Lemma resolveBindError_empty_diagnostic :
  emptyDiagnostic !! "name" = Some (VStr "InvalidCredentialsError")
  /\ emptyDiagnostic !! "lde_message" = Some (VStr "")
  /\ ~ contains "775" ""
  /\ resolveBindError (VObj emptyDiagnostic) = Return "Unknown Auth Error"
  /\ resolveBindError (VObj emptyDiagnostic) <> Return "Invalid username or password".
Proof.
  repeat split; try reflexivity; try discriminate.
  now apply indexOf_absent.
Qed.

(** ** resolveGroups *)

Section Groups.

Lemma at_index_first (a : ascii) (sep' s : string) :
  at_index (split (String a sep') s) 0 = VStr (before (String a sep') s).
Proof. unfold at_index. now rewrite split_first. Qed.

Lemma at_index_afterCN (component : string) :
  at_index (split "CN=" component) 1 = afterCN component.
Proof.
  unfold at_index, afterCN. rewrite split_second.
  now destruct (after "CN=" component).
Qed.

Lemma afterCN_absent (component : string) :
  ~ contains "CN=" component -> afterCN component = VUndefined.
Proof.
  intros H. apply indexOf_absent in H. unfold indexOf in H.
  unfold afterCN, after. destruct (String.index 0 "CN=" component); [lia | reflexivity].
Qed.

Lemma afterCN_present (component : string) :
  contains "CN=" component -> exists name, afterCN component = VStr name.
Proof.
  intros H. apply indexOf_contains in H. unfold indexOf in H.
  unfold afterCN, after. destruct (String.index 0 "CN=" component); [eauto | lia].
Qed.

Lemma afterCN_prefix (name : string) :
  ~ contains "CN=" name -> afterCN ("CN=" +:+ name) = VStr name.
Proof.
  intros H. apply indexOf_absent in H. unfold indexOf in H.
  unfold afterCN, after. rewrite index_prefix.
  change (0 + String.length "CN=")%nat with (String.length "CN=").
  rewrite sdrop_append. unfold before.
  destruct (String.index 0 "CN=" name); [lia | reflexivity].
Qed.

Lemma leading_names (gs : list string) :
  mapM (fun group =>
          do* parts := callSplit group "," in
          do* names := callSplit (at_index parts 0) "CN=" in
          Return (at_index names 1)) (map VStr gs)
  = Return (map (fun g => afterCN (before "," g)) gs).
Proof.
  induction gs as [|g gs IH]; [reflexivity|].
  cbn [map mapM callSplit cbind]. rewrite at_index_first.
  cbn [callSplit cbind]. now rewrite at_index_afterCN, IH.
Qed.

Lemma resolveGroups_array (entry : SearchEntry) (props : gmap string value)
    (gs : list string) :
  object entry = VObj props ->
  props !! "memberOf" = Some (VArr (map VStr gs)) ->
  resolveGroups entry = Return (map (fun g => afterCN (before "," g)) gs).
Proof.
  intros Ho Hm. unfold resolveGroups. rewrite Ho. simpl. rewrite Hm. simpl.
  apply leading_names.
Qed.

Lemma resolveGroups_string (entry : SearchEntry) (props : gmap string value)
    (s : string) :
  object entry = VObj props ->
  props !! "memberOf" = Some (VStr s) ->
  resolveGroups entry =
    Return (map afterCN
              (List.filter (includes "CN=") (split "," s))).
Proof.
  intros Ho Hm. unfold resolveGroups. rewrite Ho. simpl. rewrite Hm. simpl.
  f_equal. generalize (split "," s). intros l.
  induction l as [|c l IH]; [reflexivity|].
  cbn [List.filter]. destruct (Z.eqb_spec (indexOf "CN=" c) (-1)) as [E|E]; cbn [negb].
  - rewrite (proj2 (includes_indexOf "CN=" c)) by assumption. exact IH.
  - destruct (includes "CN=" c) eqn:Hi;
      [|apply includes_indexOf in Hi; contradiction].
    cbn [map]. now rewrite at_index_afterCN, IH.
Qed.

End Groups.

(** C4, as the code has it. For a record whose object field is a mapping:
    memberOf absent gives the empty sequence; a string is split on commas,
    the components containing CN= are kept, and each gives the text after
    its first CN= up to its next CN= or its end; a sequence of strings gives,
    element by element, the same reading of the text before the first comma,
    which is [undefined] when that text has no CN=; a value that is neither
    a string nor an array gives the empty sequence. For a component that is
    CN= followed by a name without CN=, the reading is the name. *)
Theorem resolveGroups_policy (entry : SearchEntry) (props : gmap string value) :
  object entry = VObj props ->
  (props !! "memberOf" = None -> resolveGroups entry = Return [])
  /\ (forall s, props !! "memberOf" = Some (VStr s) ->
       resolveGroups entry =
         Return (map afterCN
                   (List.filter (includes "CN=") (split "," s))))
  /\ (forall gs, props !! "memberOf" = Some (VArr (map VStr gs)) ->
       resolveGroups entry = Return (map (fun g => afterCN (before "," g)) gs))
  /\ (forall v, props !! "memberOf" = Some v ->
       (forall s, v <> VStr s) -> (forall l, v <> VArr l) ->
       resolveGroups entry = Return [])
  /\ (forall name, ~ contains "CN=" name -> afterCN ("CN=" +:+ name) = VStr name)
  /\ (forall component, ~ contains "CN=" component -> afterCN component = VUndefined).
Proof.
  intros Ho. repeat split.
  - intros Hm. unfold resolveGroups. rewrite Ho. simpl. now rewrite Hm.
  - intros s. now apply resolveGroups_string.
  - intros gs. now apply resolveGroups_array.
  - intros v Hm Hs Hl. unfold resolveGroups. rewrite Ho. simpl. rewrite Hm. simpl.
    destruct v; try reflexivity; [edestruct Hs | edestruct Hl]; reflexivity.
  - apply afterCN_prefix.
  - apply afterCN_absent.
Qed.

Lemma resolveGroups_policy_witness :
  resolveGroups (groupsEntry (VStr "CN=Group1,CN=Group2,DC=domain,DC=com"))
    = Return [VStr "Group1"; VStr "Group2"]
  /\ resolveGroups testEntry = Return [VStr "Group1"; VStr "Group2"]
  /\ resolveGroups (groupsEntry (VObj empty)) = Return [].
Proof.
  split; [|split].
  - exact (proj1 (proj2 (resolveGroups_policy
      (groupsEntry (VStr "CN=Group1,CN=Group2,DC=domain,DC=com")) _ eq_refl)) _ eq_refl).
  - exact (proj1 (proj2 (proj2 (resolveGroups_policy testEntry _ eq_refl)))
      ["CN=Group1,OU=Test,DC=domain,DC=com"; "CN=Group2,OU=Test,OU=Test2,DC=domain,DC=com"]
      eq_refl).
  - apply (proj1 (proj2 (proj2 (proj2 (resolveGroups_policy
      (groupsEntry (VObj empty)) _ eq_refl)))) (VObj empty)); [reflexivity | |]; discriminate.
Defined.

(** C4, as the spec words it, fails in three places: an element whose
    leading component has no CN= gives [undefined], not that component; a
    component with a second CN= is cut at it; an array holding something else
    than strings throws. *)
Lemma resolveGroups_departs_from_policy :
  (resolveGroups (groupsEntry (VArr [VStr "OU=Staff,DC=corp"])) = Return [VUndefined]
   /\ specifiedGroups (VArr [VStr "OU=Staff,DC=corp"]) = [VStr "OU=Staff"])
  /\ (resolveGroups (groupsEntry (VStr "CN=A+CN=B,DC=corp")) = Return [VStr "A+"]
      /\ specifiedGroups (VStr "CN=A+CN=B,DC=corp") = [VStr "A+CN=B"])
  /\ ((exists e, resolveGroups (groupsEntry (VArr [VNum 1])) = Throw e)
      /\ specifiedGroups (VArr [VNum 1]) = []).
Proof.
  repeat split; try reflexivity. eexists; reflexivity.
Qed.

Lemma lookup_map {A B} (f : A -> B) (l : list A) (i : nat) :
  map f l !! i = f <$> l !! i.
Proof.
  revert i; induction l as [|x l IH]; intros [|i]; simpl; auto.
Qed.

(** C10. For every record whose memberOf is an array of strings,
    [resolveGroups] returns, and returns an array with one position for each
    element; the position of an element whose text before the first comma
    does not contain CN= holds [undefined]. *)
Theorem resolveGroups_array_positions
    (entry : SearchEntry) (props : gmap string value) (gs : list string) :
  object entry = VObj props ->
  props !! "memberOf" = Some (VArr (map VStr gs)) ->
  exists out,
    resolveGroups entry = Return out
    /\ length out = length gs
    /\ forall i g, gs !! i = Some g -> ~ contains "CN=" (before "," g) ->
         out !! i = Some VUndefined.
Proof.
  intros Ho Hm. eexists. split; [now apply (resolveGroups_array entry props gs)|].
  split; [apply length_map|].
  intros i g Hi Hg. rewrite lookup_map, Hi. simpl. f_equal. now apply afterCN_absent.
Qed.

Lemma resolveGroups_array_positions_witness :
  exists out,
    resolveGroups (groupsEntry (VArr [VStr "CN=Admins,DC=corp"; VStr "OU=Staff,DC=corp"]))
      = Return out
    /\ length out = 2%nat
    /\ out !! 1%nat = Some VUndefined.
Proof.
  destruct (resolveGroups_array_positions
    (groupsEntry (VArr [VStr "CN=Admins,DC=corp"; VStr "OU=Staff,DC=corp"])) _
    ["CN=Admins,DC=corp"; "OU=Staff,DC=corp"] eq_refl eq_refl) as (out & Hr & Hl & Hu).
  exists out. split; [exact Hr|]. split; [exact Hl|].
  apply (Hu 1%nat "OU=Staff,DC=corp" eq_refl). now apply indexOf_absent.
Defined.

(** ** The operations *)

Lemma unbinds_nil : unbinds [] = 0%nat.
Proof. reflexivity. Qed.

Lemma unbinds_cons (c : call) (l : list call) :
  unbinds (c :: l) = ((if isUnbind c then 1 else 0) + unbinds l)%nat.
Proof. unfold unbinds. simpl. now destruct (isUnbind c). Qed.

Lemma unbinds_app (l l' : list call) : unbinds (l ++ l') = (unbinds l + unbinds l')%nat.
Proof. unfold unbinds. now rewrite List.filter_app, length_app. Qed.

Lemma unbinds_listener (errors : list value) :
  unbinds (map (fun _ => ClientUnbind) errors) = length errors.
Proof. unfold unbinds. induction errors; simpl; auto. Qed.

Lemma requests_listener (errors : list value) :
  requests (map (fun _ => ClientUnbind) errors) = [].
Proof. unfold requests. induction errors; simpl; auto. Qed.

Lemma omap_listener {A} (f : call -> option A) (errors : list value) :
  f ClientUnbind = None -> omap f (map (fun _ => ClientUnbind) errors) = [].
Proof. intros H. induction errors; simpl; [|rewrite H]; auto. Qed.

Ltac cases := repeat (case_match; simpl in *; try discriminate).

Ltac count :=
  repeat (progress (rewrite ?unbinds_cons, ?unbinds_app, ?unbinds_listener, ?unbinds_nil;
                    simpl));
  try lia.

Ltac trace :=
  unfold searchBases, searchesOf; simpl;
  rewrite ?app_nil_r, ?omap_app, ?omap_listener by reflexivity;
  simpl; try reflexivity.

Ltac unfold_session :=
  unfold _bind, _search, on_error, failure, calls, outcome, try_catch, sbind, lift,
    sret, client.

Section Operations.

Variable this : ActiveDirectory.
Variable dir : Directory.

(** The only calls to [unbind] are those of the ['error'] listener. *)
Lemma loginUser_unbinds (username password customBase customSearch : value) :
  (unbinds (calls (loginUser this dir username password customBase customSearch))
   <= length (client_errors dir))%nat.
Proof. unfold loginUser. unfold_session. cases; simplify_eq; count. Qed.

Lemma getAllGroups_unbinds (username password customBase detailed : value) :
  unbinds (calls (getAllGroups this dir username password customBase detailed))
  = length (client_errors dir).
Proof. unfold getAllGroups. unfold_session. cases; simplify_eq; count. Qed.

Lemma getAllUsers_unbinds (username password customBase formatted : value) :
  unbinds (calls (getAllUsers this dir username password customBase formatted))
  = length (client_errors dir).
Proof. unfold getAllUsers. unfold_session. cases; simplify_eq; count. Qed.

Lemma detectLogonType_string (u : string) :
  detectLogonType (VStr u) = Return (logonType u).
Proof.
  unfold detectLogonType, logonType. simpl.
  destruct (includes "@" u) eqn:Hat.
  - destruct (Z.eqb_spec (indexOf "@" u) (-1)) as [E|E]; [|reflexivity].
    apply includes_indexOf in E. congruence.
  - rewrite (proj1 (includes_indexOf _ _) Hat). simpl.
    destruct (includes "DC=" (toUpperCase u)) eqn:Hdc.
    + destruct (Z.eqb_spec (indexOf "DC=" (toUpperCase u)) (-1)) as [E|E]; [|reflexivity].
      apply includes_indexOf in E. congruence.
    + now rewrite (proj1 (includes_indexOf _ _) Hdc).
Qed.

Lemma sbind_lift {A B} (a : A) (k : A -> session B) : sbind (lift (Return a)) k = k a.
Proof. unfold sbind, lift. now destruct (k a). Qed.

Lemma sbind_ext {A B} (m : session A) (k k' : A -> session B) :
  (forall a, k a = k' a) -> sbind m k = sbind m k'.
Proof.
  intros H. unfold sbind. destruct m as [l [a|e]]; [now rewrite H | reflexivity].
Qed.

(** [loginUser] on strings: nothing throws before the bind. *)
Lemma loginUser_strings (u p : string) (customBase customSearch : value) :
  loginUser this dir (VStr u) (VStr p) customBase customSearch =
  try_catch
    (run* _ := client CreateClient in
     run* _ := on_error dir in
     run* _ := _bind dir (VStr u) (VStr p) in
     run* records :=
       _search this dir customBase
         (union (spread customSearch)
            (<["filter" := VStr (defaultFilter u)]> (searchOptions this))) in
     sret (Success (records !! 0%nat)))
    failure.
Proof.
  unfold loginUser. f_equal. apply sbind_ext; intros _.
  rewrite detectLogonType_string, sbind_lift. unfold defaultFilter.
  destruct (String.eqb (logonType u) "sAMAccountName").
  - change (cleanSama (VStr u))
      with (Return (at_index (split "\" u) (length (split "\" u) - 1))).
    now rewrite sbind_lift.
  - change (sret (VStr u)) with (lift (Return (VStr u))). now rewrite sbind_lift.
Qed.

Lemma failure_typeError (P : Type) (message : string) :
  failure (P := P) (typeError message)
  = ([], Return (Failure "Unknown Auth Error" (typeError message))).
Proof.
  unfold failure, resolveBindError, typeError, newError, get.
  now rewrite lookup_insert_eq.
Qed.

Lemma failure_credentialsError (P : Type) :
  failure (P := P) credentialsError
  = ([], Return (Failure "Invalid username or password" credentialsError)).
Proof. reflexivity. Qed.

Lemma _bind_rejects (username password : value) :
  typeof username <> "string" \/ typeof password <> "string" ->
  _bind dir username password = ([], Throw credentialsError).
Proof.
  intros H. unfold _bind.
  destruct (String.eqb_spec (typeof username) "string"),
    (String.eqb_spec (typeof password) "string"); simpl; try reflexivity.
  tauto.
Qed.

Lemma detectLogonType_throws (username e : value) :
  detectLogonType username = Throw e -> exists message, e = typeError message.
Proof.
  unfold detectLogonType, callIndexOf, callToUpperCase, noProperty, notAFunction.
  intros H. destruct username; simpl in H; cases; simplify_eq; eauto.
Qed.

Lemma cleanSama_throws (username e : value) :
  cleanSama username = Throw e -> exists message, e = typeError message.
Proof.
  unfold cleanSama, callSplit, noProperty, notAFunction.
  intros H. destruct username; simpl in H; cases; simplify_eq; eauto.
Qed.

Lemma not_two_strings (username password : value) :
  typeof username <> "string" \/ typeof password <> "string" ->
  negb (String.eqb (typeof username) "string")
  || negb (String.eqb (typeof password) "string") = true.
Proof.
  destruct (String.eqb_spec (typeof username) "string"),
    (String.eqb_spec (typeof password) "string"); simpl; tauto.
Qed.

(** What [loginUser] does with credentials that are not two strings. *)
Lemma loginUser_rejects (username password customBase customSearch : value) :
  typeof username <> "string" \/ typeof password <> "string" ->
  exists message error,
    outcome (loginUser this dir username password customBase customSearch)
      = Return (Failure message error)
    /\ (message = "Invalid username or password" \/ message = "Unknown Auth Error")
    /\ requests (calls (loginUser this dir username password customBase customSearch)) = [].
Proof.
  intros H. apply not_two_strings in H.
  unfold loginUser, _bind, on_error, calls, outcome, try_catch, sbind, lift, sret, client.
  simpl. rewrite H.
  destruct (detectLogonType username) as [usernameType|e] eqn:Hd; simpl.
  - assert (Hbind : exists message error,
      (let (l, c) := failure (P := option SearchEntry) credentialsError in
       (CreateClient :: (map (fun _ => ClientUnbind) (client_errors dir) ++ []) ++ l, c)).2
        = Return (Failure message error)
      /\ (message = "Invalid username or password" \/ message = "Unknown Auth Error")
      /\ requests
           (let (l, c) := failure (P := option SearchEntry) credentialsError in
            (CreateClient :: (map (fun _ => ClientUnbind) (client_errors dir) ++ []) ++ l, c)).1
         = []).
    { exists "Invalid username or password", credentialsError.
      rewrite failure_credentialsError. simpl. rewrite !app_nil_r.
      repeat split; [now left|]. apply requests_listener. }
    destruct (String.eqb usernameType "sAMAccountName"); simpl; [|exact Hbind].
    destruct (cleanSama username) as [searchUser|e] eqn:Hc; simpl; [exact Hbind|].
    destruct (cleanSama_throws _ _ Hc) as [message ->].
    exists "Unknown Auth Error", (typeError message).
    rewrite failure_typeError. repeat split. now right.
  - destruct (detectLogonType_throws _ _ Hd) as [message ->].
    exists "Unknown Auth Error", (typeError message).
    rewrite failure_typeError. repeat split. now right.
Qed.

Lemma getAllGroups_rejects (username password customBase detailed : value) :
  typeof username <> "string" \/ typeof password <> "string" ->
  outcome (getAllGroups this dir username password customBase detailed)
    = Return (Failure "Invalid username or password" credentialsError)
  /\ requests (calls (getAllGroups this dir username password customBase detailed)) = [].
Proof.
  intros H. unfold getAllGroups. rewrite (_bind_rejects _ _ H).
  unfold on_error, calls, outcome, try_catch, sbind, lift, sret, client. simpl.
  rewrite failure_credentialsError. simpl. rewrite !app_nil_r. split; [reflexivity|].
  apply requests_listener.
Qed.

Lemma getAllUsers_rejects (username password customBase formatted : value) :
  typeof username <> "string" \/ typeof password <> "string" ->
  outcome (getAllUsers this dir username password customBase formatted)
    = Return (Failure "Invalid username or password" credentialsError)
  /\ requests (calls (getAllUsers this dir username password customBase formatted)) = [].
Proof.
  intros H. unfold getAllUsers. rewrite (_bind_rejects _ _ H).
  unfold on_error, calls, outcome, try_catch, sbind, lift, sret, client. simpl.
  rewrite failure_credentialsError. simpl. rewrite !app_nil_r. split; [reflexivity|].
  apply requests_listener.
Qed.

(** The one search [loginUser] sends once the bind is accepted. *)
Lemma loginUser_search (u p : string) (customBase customSearch : value) :
  truthy (bind_error dir) = false ->
  searchesOf (calls (loginUser this dir (VStr u) (VStr p) customBase customSearch))
  = [union (spread customSearch)
       (<["filter" := VStr (defaultFilter u)]> (searchOptions this))].
Proof.
  intros Hb. rewrite loginUser_strings. unfold_session. simpl. rewrite Hb.
  destruct (search_result dir) as [records|error]; simpl;
    [|destruct (resolveBindError error)]; trace.
Qed.

(** The searches of the two listing operations go to the default base when
    the third argument is not a string. *)
Lemma getAllGroups_base (u p : string) (customBase detailed : value) :
  typeof customBase <> "string" ->
  truthy (bind_error dir) = false ->
  searchBases (calls (getAllGroups this dir (VStr u) (VStr p) customBase detailed))
  = [VStr (base this)].
Proof.
  intros Hc Hb. unfold getAllGroups. unfold_session. simpl. rewrite Hb.
  destruct (String.eqb_spec (typeof customBase) "string"); [contradiction|].
  cases; simplify_eq; trace.
Qed.

Lemma getAllUsers_base (u p : string) (customBase formatted : value) :
  typeof customBase <> "string" ->
  truthy (bind_error dir) = false ->
  searchBases (calls (getAllUsers this dir (VStr u) (VStr p) customBase formatted))
  = [VStr (base this)].
Proof.
  intros Hc Hb. unfold getAllUsers. unfold_session. simpl. rewrite Hb.
  destruct (String.eqb_spec (typeof customBase) "string"); [contradiction|].
  cases; simplify_eq; trace.
Qed.

End Operations.

(** C1. The code does not do what the claim says: [unbind] is called by the
    ['error'] listener of the client and nowhere else, so an operation
    during which the client emits no ['error'] event returns with the
    connection open. The login of the README against a directory that
    accepts the bind and answers with one entry succeeds without a call to
    [unbind]. *)
Theorem unbind_only_in_error_listener :
  (forall this dir username password customBase customSearch,
     (unbinds (calls (loginUser this dir username password customBase customSearch))
      <= length (client_errors dir))%nat)
  /\ (forall this dir username password customBase detailed,
       unbinds (calls (getAllGroups this dir username password customBase detailed))
       = length (client_errors dir))
  /\ (forall this dir username password customBase formatted,
       unbinds (calls (getAllUsers this dir username password customBase formatted))
       = length (client_errors dir))
  /\ outcome (loginUser exampleAD (accepting [testEntry])
                (VStr "test@domain.local") (VStr "password") VUndefined VUndefined)
     = Return (Success (Some testEntry))
  /\ calls (loginUser exampleAD (accepting [testEntry])
              (VStr "test@domain.local") (VStr "password") VUndefined VUndefined)
     = [CreateClient;
        ClientBind (VStr "test@domain.local") (VStr "password");
        ClientSearch (VStr "dc=domain,dc=local")
          (<["filter" := VStr "(userPrincipalName=test@domain.local)"]>
             (<["scope" := VStr "sub"]> empty))].
Proof.
  split; [|split; [|split; [|split]]].
  - apply loginUser_unbinds.
  - apply getAllGroups_unbinds.
  - apply getAllUsers_unbinds.
  - reflexivity.
  - reflexivity.
Qed.

(** C2, as the code has it. When the bind is accepted and the search ends
    without an entry, [loginUser] resolves with success true and no entry;
    nothing is thrown. *)
Theorem loginUser_no_record (this : ActiveDirectory) (dir : Directory)
    (username password : string) (customBase customSearch : value) :
  truthy (bind_error dir) = false ->
  search_result dir = SearchEnd [] ->
  outcome (loginUser this dir (VStr username) (VStr password) customBase customSearch)
  = Return (Success None).
Proof.
  intros Hb Hs. rewrite loginUser_strings. unfold_session. simpl.
  rewrite Hb, Hs. reflexivity.
Qed.

Lemma loginUser_no_record_witness :
  outcome (loginUser exampleAD (accepting [])
             (VStr "test@domain.local") (VStr "password") VUndefined VUndefined)
  = Return (Success None).
Proof.
  exact (loginUser_no_record exampleAD (accepting []) "test@domain.local" "password"
           VUndefined VUndefined eq_refl eq_refl).
Defined.

(** C2, as the spec words it, fails: no matching record is a success. *)
Lemma no_record_is_success :
  truthy (bind_error (accepting [])) = false
  /\ search_result (accepting []) = SearchEnd []
  /\ (success <$>
       match outcome (loginUser exampleAD (accepting [])
                        (VStr "test@domain.local") (VStr "password")
                        VUndefined VUndefined) with
       | Return r => Some r
       | Throw _ => None
       end) = Some true.
Proof. repeat split. Qed.

(** C5, as the code has it. With an override object, the search [loginUser]
    sends takes every option the override has from the override, the filter
    and also the scope and the size limit; an option the override does not
    have comes from the configuration, and the filter is then the one built
    from the user name. *)
Theorem loginUser_override (this : ActiveDirectory) (dir : Directory)
    (username password : string) (customBase : value) (override : gmap string value) :
  truthy (bind_error dir) = false ->
  exists search,
    searchesOf (calls (loginUser this dir (VStr username) (VStr password) customBase
                         (VObj override))) = [search]
    /\ (forall key v, override !! key = Some v -> search !! key = Some v)
    /\ (forall key, override !! key = None -> key <> "filter" ->
         search !! key = searchOptions this !! key)
    /\ (override !! "filter" = None ->
        search !! "filter" = Some (VStr (defaultFilter username))).
Proof.
  intros Hb. eexists. split; [now apply loginUser_search|]. simpl. repeat split.
  - intros key v Hk. now apply lookup_union_Some_l.
  - intros key Hk Hf. rewrite lookup_union_r by assumption. now apply lookup_insert_ne.
  - intros Hk. rewrite lookup_union_r by assumption. apply lookup_insert_eq.
Qed.

Lemma loginUser_override_witness :
  exists search,
    searchesOf (calls (loginUser boundedAD (accepting []) (VStr "jdoe") (VStr "password")
                         VUndefined (VObj (<["filter" := VStr "(cn=jdoe)"]> empty))))
      = [search]
    /\ search !! "filter" = Some (VStr "(cn=jdoe)")
    /\ search !! "scope" = Some (VStr "sub")
    /\ search !! "sizeLimit" = Some (VNum 10).
Proof.
  destruct (loginUser_override boundedAD (accepting []) "jdoe" "password" VUndefined
              (<["filter" := VStr "(cn=jdoe)"]> empty) eq_refl)
    as (search & Hs & Hover & Hconf & _).
  exists search. split; [exact Hs|]. split; [now apply Hover|].
  split; rewrite Hconf; reflexivity || discriminate.
Defined.

(** C5, as the spec words it, fails: the scope and the size limit of the
    override replace those of the configuration. *)
Lemma override_replaces_scope_and_limit :
  searchOptions boundedAD !! "scope" = Some (VStr "sub")
  /\ searchOptions boundedAD !! "sizeLimit" = Some (VNum 10)
  /\ map (fun search => (search !! "filter", search !! "scope", search !! "sizeLimit"))
       (searchesOf (calls (loginUser boundedAD (accepting []) (VStr "jdoe")
                             (VStr "password") VUndefined (VObj wideOverride))))
     = [(Some (VStr "(cn=jdoe)"), Some (VStr "base"), Some (VNum 0))].
Proof. repeat split. Qed.

(** C6, as the code has it. When the user name or the password is not a
    string, each operation resolves with a failure object, it does not
    throw; neither a bind nor a search is sent. The listing operations
    answer Invalid username or password, [loginUser] answers that or Unknown
    Auth Error. *)
Theorem non_string_credentials_resolve_with_failure
    (this : ActiveDirectory) (dir : Directory)
    (username password customBase fourth : value) :
  typeof username <> "string" \/ typeof password <> "string" ->
  (exists message error,
     outcome (loginUser this dir username password customBase fourth)
       = Return (Failure message error)
     /\ (message = "Invalid username or password" \/ message = "Unknown Auth Error")
     /\ requests (calls (loginUser this dir username password customBase fourth)) = [])
  /\ (outcome (getAllGroups this dir username password customBase fourth)
        = Return (Failure "Invalid username or password" credentialsError)
      /\ requests (calls (getAllGroups this dir username password customBase fourth)) = [])
  /\ (outcome (getAllUsers this dir username password customBase fourth)
        = Return (Failure "Invalid username or password" credentialsError)
      /\ requests (calls (getAllUsers this dir username password customBase fourth)) = []).
Proof.
  intros H. split; [|split].
  - now apply loginUser_rejects.
  - now apply getAllGroups_rejects.
  - now apply getAllUsers_rejects.
Qed.

Lemma non_string_credentials_resolve_with_failure_witness :
  outcome (getAllUsers exampleAD (accepting [testEntry]) (VStr "test@domain.local")
             (VNum 1234) VUndefined VUndefined)
  = Return (Failure "Invalid username or password" credentialsError).
Proof.
  refine (proj1 (proj2 (proj2 (non_string_credentials_resolve_with_failure
    exampleAD (accepting [testEntry]) (VStr "test@domain.local") (VNum 1234)
    VUndefined VUndefined _)))).
  right. discriminate.
Defined.

(** C6, as the spec words it, fails: a user name that is a number is
    answered with a failure object, nothing is raised. *)
Lemma loginUser_number_is_not_raised :
  typeof (VNum 42) <> "string"
  /\ outcome (loginUser exampleAD (accepting [testEntry]) (VNum 42) (VStr "password")
               VUndefined VUndefined)
     = Return (Failure "Unknown Auth Error" (typeError "indexOf is not a function"))
  /\ outcome (getAllGroups exampleAD (accepting [testEntry]) (VNum 42) (VStr "password")
               VUndefined VUndefined)
     = Return (Failure "Invalid username or password" credentialsError).
Proof. repeat split. discriminate. Qed.

(** ** Further facts about strings *)

Lemma index_absent (sub s : string) : ~ contains sub s -> String.index 0 sub s = None.
Proof.
  intros H. apply indexOf_absent in H. unfold indexOf in H.
  destruct (String.index 0 sub s); [lia | reflexivity].
Qed.

Lemma includes_char_cons (c x : ascii) (s : string) :
  includes (String c "") (String x s) = bool_decide (c = x) || includes (String c "") s.
Proof.
  cbn [includes]. rewrite prefix_cons, prefix_nil.
  destruct (decide (c = x)); case_bool_decide; congruence.
Qed.

(** A string holds a character for a last time, or not at all. *)
Lemma last_occurrence (c : ascii) (s : string) :
  includes (String c "") s = true ->
  exists d u, s = d +:+ String c u /\ includes (String c "") u = false.
Proof.
  induction s as [|x s IH]; [discriminate|].
  rewrite includes_char_cons. destruct (includes (String c "") s) eqn:Hs.
  - intros _. destruct (IH eq_refl) as (d & u & -> & Hu).
    exists (String x d), u. now rewrite append_cons.
  - rewrite orb_false_r. intros Hx. apply bool_decide_eq_true in Hx as <-.
    now exists "", s.
Qed.

Lemma splitOn_char_last (c : ascii) (d u cur : string) :
  includes (String c "") u = false ->
  last (splitOn (String c "") (d +:+ String c u) 0 cur) = Some u.
Proof.
  intros Hu. revert cur; induction d as [|x d IH]; intros cur.
  - rewrite append_nil_l, splitOn_cons, prefix_cons, prefix_nil.
    destruct (decide (c = c)); [|contradiction].
    rewrite splitOn_absent by now apply includes_index. reflexivity.
  - rewrite append_cons, splitOn_cons.
    destruct (String.prefix _ _); [|apply IH].
    rewrite last_cons. now rewrite IH.
Qed.

Lemma toUpperCase_append (a b : string) :
  toUpperCase (a +:+ b) = toUpperCase a +:+ toUpperCase b.
Proof.
  induction a as [|x a IH]; [reflexivity|].
  rewrite append_cons. cbn [toUpperCase]. now rewrite IH, append_cons.
Qed.

(** ** cleanSama *)

Lemma cleanSama_last (s : string) :
  cleanSama (VStr s)
  = Return (match last (split "\" s) with Some r => VStr r | None => VUndefined end).
Proof.
  unfold cleanSama, at_index. cbn [callSplit cbind].
  now rewrite Nat.sub_1_r, <- last_lookup.
Qed.

Lemma cleanSama_after_last (domain user : string) :
  ~ contains "\" user ->
  cleanSama (VStr (domain +:+ "\" +:+ user)) = Return (VStr user).
Proof.
  intros H. rewrite cleanSama_last. unfold split.
  rewrite append_cons, append_nil_l, splitOn_char_last; [reflexivity|].
  apply includes_index. now apply index_absent.
Qed.

Lemma cleanSama_plain (name : string) :
  ~ contains "\" name -> cleanSama (VStr name) = Return (VStr name).
Proof.
  intros H. rewrite cleanSama_last. unfold split.
  now rewrite splitOn_absent by now apply index_absent.
Qed.

(** X1. [cleanSama] returns what follows the last backslash, and a name
    without a backslash as it is. *)
Theorem cleanSama_drops_the_domain :
  (forall domain user, ~ contains "\" user ->
     cleanSama (VStr (domain +:+ "\" +:+ user)) = Return (VStr user))
  /\ (forall name, ~ contains "\" name -> cleanSama (VStr name) = Return (VStr name)).
Proof. split; [apply cleanSama_after_last | apply cleanSama_plain]. Qed.

Lemma cleanSama_drops_the_domain_witness :
  cleanSama (VStr "CORP\EU\jdoe") = Return (VStr "jdoe")
  /\ cleanSama (VStr "jdoe") = Return (VStr "jdoe").
Proof.
  split.
  - apply (proj1 cleanSama_drops_the_domain "CORP\EU" "jdoe").
    now apply indexOf_absent.
  - apply (proj2 cleanSama_drops_the_domain "jdoe"). now apply indexOf_absent.
Defined.

(** X2. On every string [cleanSama] returns a string without a backslash,
    and cleaning it again changes nothing. *)
Theorem cleanSama_idempotent (sAMA : string) :
  exists name,
    cleanSama (VStr sAMA) = Return (VStr name)
    /\ ~ contains "\" name
    /\ cleanSama (VStr name) = Return (VStr name).
Proof.
  destruct (includes "\" sAMA) eqn:Hs.
  - destruct (last_occurrence _ _ Hs) as (d & u & -> & Hu).
    assert (Hno : ~ contains "\" u).
    { intros Hc. apply includes_contains in Hc. congruence. }
    exists u. split; [|split; [exact Hno|]].
    + exact (cleanSama_after_last d u Hno).
    + exact (cleanSama_plain u Hno).
  - assert (Hno : ~ contains "\" sAMA).
    { intros Hc. apply includes_contains in Hc. congruence. }
    exists sAMA. repeat split; [|exact Hno|]; exact (cleanSama_plain sAMA Hno).
Qed.

(** ** detectLogonType *)

Lemma logonType_upn (username : string) :
  contains "@" username -> logonType username = "userPrincipalName".
Proof. intros H. apply includes_contains in H. unfold logonType. now rewrite H. Qed.

Lemma logonType_dn (username : string) :
  ~ contains "@" username -> contains "DC=" (toUpperCase username) ->
  logonType username = "distinguishedName".
Proof.
  intros Hat Hdc. unfold logonType.
  destruct (includes "@" _) eqn:E; [apply includes_contains in E; contradiction|].
  apply includes_contains in Hdc. now rewrite Hdc.
Qed.

Lemma logonType_sam (username : string) :
  ~ contains "@" username -> ~ contains "DC=" (toUpperCase username) ->
  logonType username = "sAMAccountName".
Proof.
  intros Hat Hdc. unfold logonType.
  destruct (includes "@" _) eqn:E; [apply includes_contains in E; contradiction|].
  destruct (includes "DC=" _) eqn:E'; [apply includes_contains in E'; contradiction|].
  reflexivity.
Qed.

(** X3. On a string [detectLogonType] answers userPrincipalName when the
    string holds an at sign; otherwise distinguishedName when it holds DC= in
    any mix of upper and lower case; otherwise sAMAccountName. *)
Theorem detectLogonType_classifies (username : string) :
  (contains "@" username ->
   detectLogonType (VStr username) = Return "userPrincipalName")
  /\ (~ contains "@" username ->
      (exists pre dc post, username = pre +:+ dc +:+ post /\ toUpperCase dc = "DC=") ->
      detectLogonType (VStr username) = Return "distinguishedName")
  /\ (~ contains "@" username -> ~ contains "DC=" (toUpperCase username) ->
      detectLogonType (VStr username) = Return "sAMAccountName").
Proof.
  rewrite detectLogonType_string. repeat split.
  - intros H. now rewrite logonType_upn.
  - intros Hat (pre & dc & post & -> & Hdc). rewrite logonType_dn; [reflexivity|exact Hat|].
    rewrite !toUpperCase_append, Hdc. eexists _, _; reflexivity.
  - intros Hat Hdc. now rewrite logonType_sam.
Qed.

Lemma detectLogonType_classifies_witness :
  detectLogonType (VStr "jdoe@corp.local") = Return "userPrincipalName"
  /\ detectLogonType (VStr "cn=jdoe,dc=corp,dc=local") = Return "distinguishedName"
  /\ detectLogonType (VStr "CORP\jdoe") = Return "sAMAccountName".
Proof.
  split; [|split].
  - apply (proj1 (detectLogonType_classifies _)). now exists "jdoe", "corp.local".
  - apply (proj1 (proj2 (detectLogonType_classifies _))).
    + now apply indexOf_absent.
    + now exists "cn=jdoe,", "dc=", "corp,dc=local".
  - apply (proj2 (proj2 (detectLogonType_classifies _))); now apply indexOf_absent.
Defined.

(** ** convertToDate *)

Lemma length_two (s : string) :
  String.length s = 2%nat -> exists a b, s = String a (String b "").
Proof. destruct s as [|a [|b [|c s]]]; try discriminate. eauto. Qed.

Lemma length_four (s : string) :
  String.length s = 4%nat -> exists a b c d, s = String a (String b (String c (String d ""))).
Proof. destruct s as [|a [|b [|c [|d [|e s]]]]]; try discriminate. eauto 6. Qed.

(** X4. [convertToDate] cuts a timestamp YYYYMMDDHHMMSS... at the fixed
    offsets and builds the date from YYYY-MM-DDTHH:MM:SS.000Z; what follows
    the seconds is dropped. *)
Theorem convertToDate_reads_fields (year month day hour min sec rest : string) :
  String.length year = 4%nat -> String.length month = 2%nat ->
  String.length day = 2%nat -> String.length hour = 2%nat ->
  String.length min = 2%nat -> String.length sec = 2%nat ->
  convertToDate (VStr (year +:+ month +:+ day +:+ hour +:+ min +:+ sec +:+ rest))
  = Return (NewDate (year +:+ "-" +:+ month +:+ "-" +:+ day +:+ "T" +:+ hour +:+ ":"
                      +:+ min +:+ ":" +:+ sec +:+ ".000Z")).
Proof.
  intros Hy Hmo Hd Hh Hmi Hs.
  destruct (length_four _ Hy) as (y1 & y2 & y3 & y4 & ->).
  destruct (length_two _ Hmo) as (? & ? & ->). destruct (length_two _ Hd) as (? & ? & ->).
  destruct (length_two _ Hh) as (? & ? & ->). destruct (length_two _ Hmi) as (? & ? & ->).
  destruct (length_two _ Hs) as (? & ? & ->).
  destruct rest; reflexivity.
Qed.

Lemma convertToDate_reads_fields_witness :
  convertToDate (VStr "20190305174209.0Z") = Return (NewDate "2019-03-05T17:42:09.000Z").
Proof.
  exact (convertToDate_reads_fields "2019" "03" "05" "17" "42" "09" ".0Z"
           eq_refl eq_refl eq_refl eq_refl eq_refl eq_refl).
Defined.

(** ** createUserObj *)

Lemma resolveGroups_returns_attributes (entry : SearchEntry) (groups : list value) :
  resolveGroups entry = Return groups ->
  match object entry with
  | VObj _ | VArr _ => True
  | _ => False
  end.
Proof.
  unfold resolveGroups. destruct (object entry); simpl; try discriminate; auto.
Qed.

(** X5. [createUserObj] fails exactly when [resolveGroups] or [resolveGUID]
    fails. When both succeed on a record whose object is a mapping, the user
    object holds their results, the distinguished name of the record, and
    for phone, name and mail the attribute or the empty string when the
    attribute is missing or empty. *)
Theorem createUserObj_composes (entry : SearchEntry) :
  ((exists e, createUserObj entry = Throw e) <->
   (exists e, resolveGroups entry = Throw e) \/ (exists e, resolveGUID entry = Throw e))
  /\ (forall props groups guid,
        object entry = VObj props ->
        resolveGroups entry = Return groups ->
        resolveGUID entry = Return guid ->
        createUserObj entry =
          Return (User groups (textOf props "telephoneNumber") (textOf props "name")
                    (textOf props "mail") guid (objectName entry))).
Proof.
  split.
  - unfold createUserObj.
    destruct (resolveGroups entry) as [groups|e] eqn:Hg; simpl.
    + pose proof (resolveGroups_returns_attributes _ _ Hg) as Ho.
      destruct (object entry); try contradiction; simpl;
        (destruct (resolveGUID entry); simpl;
         (split;
          [intros [? ?]; try discriminate; eauto
          |intros [[? ?]|[? ?]]; try discriminate; eauto])).
    + split; eauto.
  - intros props groups guid Ho Hg Hid. unfold createUserObj, textOf, or_else.
    rewrite Hg, Hid, Ho. simpl.
    repeat (destruct (props !! _); simpl); reflexivity.
Qed.

Lemma createUserObj_composes_witness :
  createUserObj staffEntry
  = Return (User [VStr "Staff"] (VStr "") (VStr "") (VStr "")
              "17d4e710-624d-4978-900b-8549cb753699" (VStr "CN=jdoe,DC=corp"))
  /\ (exists e, createUserObj (groupsEntry (VStr "CN=Staff,DC=corp")) = Throw e).
Proof.
  split.
  - exact (proj2 (createUserObj_composes staffEntry) _ _ _ eq_refl eq_refl eq_refl).
  - apply (proj1 (createUserObj_composes (groupsEntry (VStr "CN=Staff,DC=corp")))).
    right. eexists; reflexivity.
Defined.

(** ** The text of a GUID *)

Lemma isHexChar_hexDigit (d : N) : isHexChar (hexDigit d) = true.
Proof.
  destruct d as [|p]; [reflexivity|].
  do 5 (try destruct p as [p|p|]); reflexivity.
Qed.

Lemma hexString_hex2 (b : byte) : hexString (hex2 b) = true.
Proof. unfold hex2. cbn [hexString]. now rewrite !isHexChar_hexDigit. Qed.

Lemma hexString_append (a b : string) :
  hexString (a +:+ b) = hexString a && hexString b.
Proof.
  induction a as [|c a IH]; [reflexivity|].
  rewrite append_cons. cbn [hexString]. now rewrite IH, andb_assoc.
Qed.

Lemma unhex2_hex2 (b : byte) : unhex2 (hex2 b) = Some b.
Proof. destruct b; reflexivity. Qed.

Lemma hex2_inj (b b' : byte) : hex2 b = hex2 b' -> b = b'.
Proof.
  intros H. apply (f_equal unhex2) in H. rewrite !unhex2_hex2 in H. congruence.
Qed.

(** What [resolveGUID] returns is the text of sixteen bytes. *)
Lemma resolveGUID_returns (entry : SearchEntry) (guid : string) :
  resolveGUID entry = Return guid ->
  exists raw, rawGUID entry raw /\ (16 <= length raw)%nat /\ guid = formatGUID raw.
Proof.
  intros H.
  destruct (attributes entry) as [attrs|] eqn:Ha;
    [|unfold resolveGUID in H; rewrite Ha in H; discriminate].
  destruct (List.find isObjectGUID attrs) as [attribute|] eqn:Hf;
    [|unfold resolveGUID in H; rewrite Ha, Hf in H; discriminate].
  destruct (buffers attribute !! 0%nat) as [raw|] eqn:Hb;
    [|unfold resolveGUID in H; rewrite Ha, Hf, Hb in H; discriminate].
  assert (Hraw : rawGUID entry raw) by (exists attrs, attribute; auto).
  exists raw. split; [exact Hraw|].
  destruct (decide (length raw < 16)%nat) as [Hlt|Hge].
  - destruct (resolveGUID_short entry raw Hraw Hlt) as [e He]. congruence.
  - split; [lia|]. rewrite (resolveGUID_decodes entry raw Hraw) in H by lia. congruence.
Qed.

(** X6. Whatever [resolveGUID] returns has the canonical shape: 36
    characters, five groups of 8, 4, 4, 4 and 12 lower-case hexadecimal
    digits with a dash between them. *)
Theorem resolveGUID_canonical_shape (entry : SearchEntry) (guid : string) :
  resolveGUID entry = Return guid ->
  String.length guid = 36%nat
  /\ exists g1 g2 g3 g4 g5,
       guid = g1 +:+ "-" +:+ g2 +:+ "-" +:+ g3 +:+ "-" +:+ g4 +:+ "-" +:+ g5
       /\ map String.length [g1; g2; g3; g4; g5] = [8; 4; 4; 4; 12]%nat
       /\ forallb hexString [g1; g2; g3; g4; g5] = true.
Proof.
  intros H. destruct (resolveGUID_returns _ _ H) as (raw & _ & Hlen & ->).
  do 16 (destruct raw as [|? raw]; [simpl in Hlen; lia|]).
  split; [reflexivity|].
  eexists (hex2 _ +:+ hex2 _ +:+ hex2 _ +:+ hex2 _), (hex2 _ +:+ hex2 _),
    (hex2 _ +:+ hex2 _), (hex2 _ +:+ hex2 _),
    (hex2 _ +:+ hex2 _ +:+ hex2 _ +:+ hex2 _ +:+ hex2 _ +:+ hex2 _).
  split; [reflexivity|]. split; [reflexivity|].
  cbn [forallb]. now rewrite !hexString_append, !hexString_hex2.
Qed.

Lemma resolveGUID_canonical_shape_witness :
  String.length "17d4e710-624d-4978-900b-8549cb753699" = 36%nat.
Proof.
  exact (proj1 (resolveGUID_canonical_shape testEntry _ eq_refl)).
Defined.

(** X7. The text determines the bytes: two records whose sixteen-byte
    values differ never get the same GUID text. *)
Theorem resolveGUID_injective (entry entry' : SearchEntry) (raw raw' : list byte) :
  rawGUID entry raw -> rawGUID entry' raw' ->
  length raw = 16%nat -> length raw' = 16%nat ->
  resolveGUID entry = resolveGUID entry' ->
  raw = raw'.
Proof.
  intros Hr Hr' Hl Hl' H.
  rewrite (resolveGUID_decodes _ _ Hr), (resolveGUID_decodes _ _ Hr') in H by lia.
  do 16 (destruct raw as [|? raw]; [discriminate Hl|]).
  do 16 (destruct raw' as [|? raw']; [discriminate Hl'|]).
  destruct raw; [|discriminate Hl]. destruct raw'; [|discriminate Hl'].
  injection H. cbn [nth]. intros.
  repeat f_equal; apply hex2_inj; unfold hex2; cbv zeta; congruence.
Qed.

Lemma resolveGUID_injective_witness :
  testGUID = testGUID.
Proof.
  assert (H : rawGUID testEntry testGUID).
  { eexists _, _. repeat split; reflexivity. }
  assert (H' : rawGUID (guidEntry testGUID) testGUID).
  { eexists _, _. repeat split; reflexivity. }
  exact (resolveGUID_injective testEntry (guidEntry testGUID) testGUID testGUID H H'
           eq_refl eq_refl eq_refl).
Defined.

(** ** The operations, bind accepted or rejected *)

Section Outcomes.

Variable this : ActiveDirectory.
Variable dir : Directory.

Lemma failure_caught {P} (err : value) : failure (P := P) err = ([], caught err).
Proof.
  unfold failure, caught, sbind, lift, sret, cbind.
  now destruct (resolveBindError err).
Qed.

Lemma searchBase_test (customBase : value) :
  (if String.eqb (typeof customBase) "string" && truthy customBase
   then customBase else VStr (base this)) = searchBase this customBase.
Proof. destruct customBase as [| | | |[|c s]| |]; reflexivity. Qed.

Lemma course_accepted {P} (u p : string) (customBase : value)
    (search : gmap string value) (post : list SearchEntry -> completion (Result P)) :
  truthy (bind_error dir) = false ->
  course this dir u p customBase search post
  = (upToBind dir u p ++ [ClientSearch (searchBase this customBase) search],
     match search_result dir with
     | SearchEnd records =>
         match post records with
         | Return r => Return r
         | Throw e => caught e
         end
     | SearchError e => caught e
     end).
Proof.
  intros Hb. unfold course, _bind, _search, on_error, upToBind.
  rewrite searchBase_test.
  unfold try_catch, sbind, lift, sret, client. simpl. rewrite Hb.
  destruct (search_result dir) as [records|e]; [destruct (post records)|];
    rewrite ?failure_caught; simpl; rewrite ?app_nil_r, <- ?app_assoc; reflexivity.
Qed.

Lemma course_rejected {P} (u p : string) (customBase : value)
    (search : gmap string value) (post : list SearchEntry -> completion (Result P)) :
  truthy (bind_error dir) = true ->
  course this dir u p customBase search post = (upToBind dir u p, caught (bind_error dir)).
Proof.
  intros Hb. unfold course, _bind, on_error, upToBind.
  unfold try_catch, sbind, lift, sret, client. simpl. rewrite Hb.
  rewrite failure_caught. simpl. now rewrite ?app_nil_r.
Qed.

Lemma sbind_lift_sret {A B} (m : completion A) (f : A -> B) :
  sbind (lift m) (fun a => sret (f a))
  = lift (match m with Return a => Return (f a) | Throw e => Throw e end).
Proof. now destruct m. Qed.

Lemma loginUser_course (u p : string) (customBase customSearch : value) :
  loginUser this dir (VStr u) (VStr p) customBase customSearch
  = course this dir u p customBase
      (union (spread customSearch)
         (<["filter" := VStr (defaultFilter u)]> (searchOptions this)))
      (fun records => Return (Success (records !! 0%nat))).
Proof. now rewrite loginUser_strings. Qed.

Lemma getAllGroups_course (u p : string) (customBase detailed : value) :
  getAllGroups this dir (VStr u) (VStr p) customBase detailed
  = course this dir u p customBase
      (<["attributes" := if truthy (flag_shim customBase detailed)
                         then detailedAttributes else VStr "name"]>
         (<["filter" := VStr "(objectCategory=group)"]> (searchOptions this)))
      (fun records =>
         if truthy (flag_shim customBase detailed)
         then match getDetails records with
              | Return groups => Return (Success (GroupDetails groups))
              | Throw e => Throw e
              end
         else match mapM (fun entry => get (object entry) "name") records with
              | Return names => Return (Success (GroupNames names))
              | Throw e => Throw e
              end).
Proof.
  unfold getAllGroups, course. f_equal.
  do 4 (apply sbind_ext; intros ?).
  destruct (truthy (flag_shim customBase detailed)); apply sbind_lift_sret.
Qed.

Lemma getAllUsers_course (u p : string) (customBase formatted : value) :
  getAllUsers this dir (VStr u) (VStr p) customBase formatted
  = course this dir u p customBase
      (<["filter" := VStr "(&(objectClass=user)(objectCategory=person))"]>
         (searchOptions this))
      (fun records =>
         if truthy (flag_shim customBase formatted)
         then match mapM createUserObj records with
              | Return users => Return (Success (UserObjs users))
              | Throw e => Throw e
              end
         else Return (Success (Entries records))).
Proof.
  unfold getAllUsers, course. f_equal.
  do 4 (apply sbind_ext; intros ?).
  destruct (truthy (flag_shim customBase formatted)); [apply sbind_lift_sret | reflexivity].
Qed.

End Outcomes.

(** ** What the directory is asked, what the caller is told *)

Lemma requests_upToBind (dir : Directory) (u p : string) :
  requests (upToBind dir u p) = [ClientBind (VStr u) (VStr p)].
Proof.
  unfold upToBind, requests. cbn [List.filter isRequest]. rewrite List.filter_app.
  fold (requests (map (fun _ => ClientUnbind) (client_errors dir))).
  now rewrite requests_listener.
Qed.

Lemma requests_search (dir : Directory) (u p : string) (base : value)
    (search : gmap string value) :
  requests (upToBind dir u p ++ [ClientSearch base search])
  = [ClientBind (VStr u) (VStr p); ClientSearch base search].
Proof.
  unfold requests. rewrite List.filter_app. fold (requests (upToBind dir u p)).
  now rewrite requests_upToBind.
Qed.

Lemma searchesOf_search (dir : Directory) (u p : string) (base : value)
    (search : gmap string value) :
  searchesOf (upToBind dir u p ++ [ClientSearch base search]) = [search].
Proof. unfold upToBind. trace. Qed.

Lemma searchBases_search (dir : Directory) (u p : string) (base : value)
    (search : gmap string value) :
  searchBases (upToBind dir u p ++ [ClientSearch base search]) = [base].
Proof. unfold upToBind. trace. Qed.

Lemma resolveBindError_decoderError (e : value) :
  decoderError e -> resolveBindError e = Return "Unknown Auth Error".
Proof.
  intros [message [-> | ->]]; unfold resolveBindError, typeError, newError, get;
    now rewrite lookup_insert_eq.
Qed.

Lemma caught_decoderError {P} (e : value) :
  decoderError e -> caught (P := P) e = Return (Failure "Unknown Auth Error" e).
Proof. intros H. unfold caught. now rewrite resolveBindError_decoderError. Qed.

Lemma resolveBindError_ldapjsError (e : value) :
  ldapjsError e -> exists message, resolveBindError e = Return message.
Proof.
  intros (props & -> & Hd). unfold resolveBindError. cbn [get cbind].
  destruct (isStr _ _); cbn [negb]; [|eauto].
  destruct Hd as [-> | [diag ->]]; simpl; [eauto|].
  destruct (String.eqb diag ""); simpl; [eauto|].
  destruct (indexOf "775" diag =? -1)%Z; simpl; eauto.
Qed.

Lemma caught_ldapjsError {P} (e : value) :
  ldapjsError e -> exists message, caught (P := P) e = Return (Failure message e).
Proof.
  intros H. destruct (resolveBindError_ldapjsError e H) as [message Hm].
  exists message. unfold caught. now rewrite Hm.
Qed.

Lemma resolveBindError_other_name (e name : value) :
  get e "name" = Return name -> name <> VStr "InvalidCredentialsError" ->
  resolveBindError e = Return "Unknown Auth Error".
Proof.
  intros Hn Hne. unfold resolveBindError. rewrite Hn. cbn [cbind].
  destruct name as [| | | |n| |]; try reflexivity.
  cbn [isStr]. destruct (String.eqb_spec n "InvalidCredentialsError"); [congruence|reflexivity].
Qed.

(** *** Loops *)

Lemma mapM_length {A B} (f : A -> completion B) (l : list A) (out : list B) :
  mapM f l = Return out -> length out = length l.
Proof.
  revert out; induction l as [|x l IH]; intros out; cbn [mapM cbind].
  - now intros [= <-].
  - destruct (f x); [|discriminate]. cbn [cbind].
    destruct (mapM f l); [|discriminate]. cbn [cbind].
    intros [= <-]. cbn [length]. now rewrite (IH _ eq_refl).
Qed.

Lemma mapM_throws {A B} (f : A -> completion B) (l : list A) (x : A) (e : value) :
  In x l -> f x = Throw e -> exists e', mapM f l = Throw e'.
Proof.
  intros Hin Hx. induction l as [|y l IH]; [contradiction|].
  cbn [mapM]. destruct Hin as [-> | Hin].
  - rewrite Hx. eauto.
  - destruct (f y); cbn [cbind]; [|eauto].
    destruct (IH Hin) as [e' ->]. eauto.
Qed.

Lemma mapM_thrown {A B} (f : A -> completion B) (l : list A) (e : value) :
  mapM f l = Throw e -> exists x, In x l /\ f x = Throw e.
Proof.
  induction l as [|y l IH]; [discriminate|].
  cbn [mapM]. destruct (f y) eqn:Hy; cbn [cbind].
  - destruct (mapM f l); cbn [cbind]; [discriminate|].
    intros [= <-]. destruct (IH eq_refl) as (x & Hin & Hx). exists x. split; [now right|exact Hx].
  - intros [= <-]. exists y. split; [now left|exact Hy].
Qed.

Lemma mapM_returns {A B} (f : A -> completion B) (g : A -> B) (l : list A) :
  Forall (fun x => f x = Return (g x)) l -> mapM f l = Return (map g l).
Proof.
  induction 1 as [|x l Hx _ IH]; [reflexivity|].
  cbn [mapM map]. now rewrite Hx, IH.
Qed.

(** *** What the decoders throw *)

Lemma get_throws (v : value) (key : string) (e : value) :
  get v key = Throw e -> decoderError e.
Proof. destruct v; try discriminate; intros [= <-]; eexists; left; reflexivity. Qed.

Lemma callSplit_throws (v : value) (sep : string) (e : value) :
  callSplit v sep = Throw e -> decoderError e.
Proof. destruct v; try discriminate; intros [= <-]; eexists; left; reflexivity. Qed.

Lemma callSlice_throws (v : value) (from to : nat) (e : value) :
  callSlice v from to = Throw e -> decoderError e.
Proof. destruct v; try discriminate; intros [= <-]; eexists; left; reflexivity. Qed.

Lemma convertToDate_throws (date e : value) :
  convertToDate date = Throw e -> decoderError e.
Proof.
  unfold convertToDate.
  destruct (callSlice date 0 4) eqn:H1; [|intros [= <-]; eauto using callSlice_throws].
  destruct date; try discriminate; discriminate.
Qed.

Lemma byteString_throws (raw : list byte) (i : nat) (e : value) :
  byteString raw i = Throw e -> decoderError e.
Proof.
  unfold byteString. destruct (raw !! i); [discriminate|].
  intros [= <-]. eexists; left; reflexivity.
Qed.

Lemma resolveGUID_throws (entry : SearchEntry) (e : value) :
  resolveGUID entry = Throw e -> decoderError e.
Proof.
  unfold resolveGUID.
  destruct (attributes entry) as [attrs|]; [|intros [= <-]; eexists; right; reflexivity].
  destruct (List.find isObjectGUID attrs) as [attribute|];
    [|intros [= <-]; eexists; left; reflexivity].
  destruct (buffers attribute !! 0%nat) as [raw|];
    [|intros [= <-]; eexists; left; reflexivity].
  destruct (mapM _ guidFormat) as [guidArray|e'] eqn:Hm; [discriminate|].
  intros [= <-]. apply mapM_thrown in Hm as (part & _ & Hp).
  destruct (mapM (byteString raw) part) eqn:Hb; [discriminate|].
  injection Hp as <-. apply mapM_thrown in Hb as (i & _ & Hi).
  eauto using byteString_throws.
Qed.

Lemma resolveGroups_throws (entry : SearchEntry) (e : value) :
  resolveGroups entry = Throw e -> decoderError e.
Proof.
  unfold resolveGroups.
  destruct (negb _); [intros [= <-]; eexists; right; reflexivity|].
  destruct (get (object entry) "memberOf") as [memberOf|e'] eqn:Hg;
    [|intros [= <-]; eauto using get_throws].
  cbn [cbind]. destruct memberOf; try discriminate.
  intros Hm. apply mapM_thrown in Hm as (group & _ & Hgroup).
  destruct (callSplit group ",") as [parts|e'] eqn:Hs;
    [|injection Hgroup as <-; eauto using callSplit_throws].
  cbn [cbind] in Hgroup.
  destruct (callSplit (at_index parts 0) "CN=") as [names|e'] eqn:Hn;
    [discriminate|injection Hgroup as <-; eauto using callSplit_throws].
Qed.

Lemma createUserObj_throws (entry : SearchEntry) (e : value) :
  createUserObj entry = Throw e -> decoderError e.
Proof.
  unfold createUserObj.
  destruct (resolveGroups entry) eqn:Hg; [|intros [= <-]; eauto using resolveGroups_throws].
  cbn [cbind].
  repeat (match goal with
          | |- context [get ?v ?k] =>
              destruct (get v k) eqn:?; [|intros [= <-]; eauto using get_throws]
          end; cbn [cbind]).
  destruct (resolveGUID entry) eqn:Hid; [discriminate|].
  intros [= <-]; eauto using resolveGUID_throws.
Qed.

Lemma getDetails_throws (records : list SearchEntry) (e : value) :
  getDetails records = Throw e -> decoderError e.
Proof.
  unfold getDetails. intros H. apply mapM_thrown in H as (entry & _ & H).
  repeat (match type of H with
          | context [get ?v ?k] =>
              destruct (get v k) eqn:?; [|injection H as <-; eauto using get_throws]
          | context [resolveGUID ?x] =>
              destruct (resolveGUID x) eqn:?; [|injection H as <-; eauto using resolveGUID_throws]
          | context [convertToDate ?x] =>
              destruct (convertToDate x) eqn:?;
                [|injection H as <-; eauto using convertToDate_throws]
          end; cbn [cbind] in H).
  discriminate.
Qed.

(** ** The boolean in the place of the base *)

Lemma flag_shim_boolean (flag : bool) : flag_shim (VBool flag) VUndefined = VBool flag.
Proof. reflexivity. Qed.

Lemma searchBase_boolean (this : ActiveDirectory) (flag : bool) :
  searchBase this (VBool flag) = VStr (base this).
Proof. reflexivity. Qed.

(** C9. When the third argument of [getAllGroups] or [getAllUsers] is a
    boolean and the fourth is left out, the boolean is the flag and the
    search goes to the base of the configuration. With [true] the groups are
    asked for with the six attributes of the detailed form and come back as
    [getDetails] builds them, the users as [createUserObj] builds them; with
    [false] the groups are asked for by name and come back as names, the
    users as the records themselves. A record that does not decode ends the
    listing in the [catch] clause. The call is the call with no base and the
    boolean in the place of the flag. *)
Theorem boolean_base_is_the_flag (this : ActiveDirectory) (dir : Directory)
    (username password : string) (flag : bool) (records : list SearchEntry) :
  truthy (bind_error dir) = false ->
  search_result dir = SearchEnd records ->
  (requests (calls (getAllGroups this dir (VStr username) (VStr password)
                      (VBool flag) VUndefined))
   = [ClientBind (VStr username) (VStr password);
      ClientSearch (VStr (base this))
        (<["attributes" := if flag then detailedAttributes else VStr "name"]>
           (<["filter" := VStr "(objectCategory=group)"]> (searchOptions this)))]
   /\ outcome (getAllGroups this dir (VStr username) (VStr password) (VBool flag) VUndefined)
      = (if flag
         then match getDetails records with
              | Return groups => Return (Success (GroupDetails groups))
              | Throw e => caught e
              end
         else match mapM (fun entry => get (object entry) "name") records with
              | Return names => Return (Success (GroupNames names))
              | Throw e => caught e
              end)
   /\ getAllGroups this dir (VStr username) (VStr password) (VBool flag) VUndefined
      = getAllGroups this dir (VStr username) (VStr password) VUndefined (VBool flag))
  /\ (requests (calls (getAllUsers this dir (VStr username) (VStr password)
                         (VBool flag) VUndefined))
      = [ClientBind (VStr username) (VStr password);
         ClientSearch (VStr (base this))
           (<["filter" := VStr "(&(objectClass=user)(objectCategory=person))"]>
              (searchOptions this))]
      /\ outcome (getAllUsers this dir (VStr username) (VStr password) (VBool flag) VUndefined)
         = (if flag
            then match mapM createUserObj records with
                 | Return users => Return (Success (UserObjs users))
                 | Throw e => caught e
                 end
            else Return (Success (Entries records)))
      /\ getAllUsers this dir (VStr username) (VStr password) (VBool flag) VUndefined
         = getAllUsers this dir (VStr username) (VStr password) VUndefined (VBool flag)).
Proof.
  intros Hb Hs. split; (split; [|split; [|reflexivity]]).
  - rewrite getAllGroups_course, course_accepted by assumption.
    unfold calls. cbn [fst].
    now rewrite requests_search, flag_shim_boolean, searchBase_boolean.
  - rewrite getAllGroups_course, course_accepted by assumption.
    unfold outcome. cbn [snd]. rewrite Hs, flag_shim_boolean.
    destruct flag; cbn [truthy].
    + now destruct (getDetails records).
    + now destruct (mapM _ records).
  - rewrite getAllUsers_course, course_accepted by assumption.
    unfold calls. cbn [fst].
    now rewrite requests_search, searchBase_boolean.
  - rewrite getAllUsers_course, course_accepted by assumption.
    unfold outcome. cbn [snd]. rewrite Hs, flag_shim_boolean.
    destruct flag; cbn [truthy]; [|reflexivity].
    now destruct (mapM createUserObj records).
Qed.

Lemma boolean_base_is_the_flag_witness :
  (requests (calls (getAllGroups exampleAD (accepting [datedGroup])
                      (VStr "test@domain.local") (VStr "password") (VBool true) VUndefined))
   = [ClientBind (VStr "test@domain.local") (VStr "password");
      ClientSearch (VStr "dc=domain,dc=local")
        (list_to_map [("attributes", detailedAttributes);
                      ("filter", VStr "(objectCategory=group)");
                      ("scope", VStr "sub")])]
   /\ outcome (getAllGroups exampleAD (accepting [datedGroup])
                 (VStr "test@domain.local") (VStr "password") (VBool true) VUndefined)
      = Return (Success (GroupDetails
          [Group (VStr "Staff") (VStr "CN=Staff,DC=domain,DC=local")
             "17d4e710-624d-4978-900b-8549cb753699" (VStr "All staff")
             (NewDate "2018-03-14T09:30:00.000Z") (NewDate "2019-01-02T12:05:00.000Z")]))
   /\ outcome (getAllGroups exampleAD (accepting [datedGroup])
                 (VStr "test@domain.local") (VStr "password") (VBool false) VUndefined)
      = Return (Success (GroupNames [VStr "Staff"])))
  /\ (requests (calls (getAllUsers exampleAD (accepting [testEntry])
                         (VStr "test@domain.local") (VStr "password")
                         (VBool false) VUndefined))
      = [ClientBind (VStr "test@domain.local") (VStr "password");
         ClientSearch (VStr "dc=domain,dc=local")
           (list_to_map [("filter", VStr "(&(objectClass=user)(objectCategory=person))");
                         ("scope", VStr "sub")])]
      /\ outcome (getAllUsers exampleAD (accepting [testEntry])
                    (VStr "test@domain.local") (VStr "password") (VBool true) VUndefined)
         = Return (Success (UserObjs
             [User [VStr "Group1"; VStr "Group2"] (VStr "+1 12312312324") (VStr "Test User")
                (VStr "test@domain.com") "17d4e710-624d-4978-900b-8549cb753699" VUndefined]))
      /\ outcome (getAllUsers exampleAD (accepting [testEntry])
                    (VStr "test@domain.local") (VStr "password") (VBool false) VUndefined)
         = Return (Success (Entries [testEntry]))).
Proof.
  pose proof (boolean_base_is_the_flag exampleAD (accepting [datedGroup])
    "test@domain.local" "password" true [datedGroup] eq_refl eq_refl) as [(Gr & Go & _) _].
  pose proof (boolean_base_is_the_flag exampleAD (accepting [datedGroup])
    "test@domain.local" "password" false [datedGroup] eq_refl eq_refl) as [(_ & Gn & _) _].
  pose proof (boolean_base_is_the_flag exampleAD (accepting [testEntry])
    "test@domain.local" "password" true [testEntry] eq_refl eq_refl) as [_ (_ & Uo & _)].
  pose proof (boolean_base_is_the_flag exampleAD (accepting [testEntry])
    "test@domain.local" "password" false [testEntry] eq_refl eq_refl) as [_ (Ur & Un & _)].
  split; (split; [|split]).
  - rewrite Gr. reflexivity.
  - rewrite Go. reflexivity.
  - rewrite Gn. reflexivity.
  - rewrite Ur. reflexivity.
  - rewrite Uo. reflexivity.
  - rewrite Un. reflexivity.
Defined.

(** ** Further properties of the operations *)

(** X8. When several records match, [loginUser] returns the first and
    drops the others. *)
Theorem loginUser_returns_first_record (this : ActiveDirectory) (dir : Directory)
    (username password : string) (customBase customSearch : value)
    (first : SearchEntry) (others : list SearchEntry) :
  truthy (bind_error dir) = false ->
  search_result dir = SearchEnd (first :: others) ->
  outcome (loginUser this dir (VStr username) (VStr password) customBase customSearch)
  = Return (Success (Some first)).
Proof.
  intros Hb Hs. rewrite loginUser_course, course_accepted by assumption.
  unfold outcome. cbn [snd]. now rewrite Hs.
Qed.

Lemma loginUser_returns_first_record_witness :
  outcome (loginUser exampleAD (accepting [testEntry; staffEntry])
             (VStr "test@domain.local") (VStr "password") VUndefined VUndefined)
  = Return (Success (Some testEntry)).
Proof.
  exact (loginUser_returns_first_record exampleAD (accepting [testEntry; staffEntry])
           "test@domain.local" "password" VUndefined VUndefined testEntry [staffEntry]
           eq_refl eq_refl).
Defined.

(** X9. When the directory rejects the bind, each operation stops there: it
    sends no search and resolves with the failure object that carries the
    message of [resolveBindError] and the error of the bind untouched. *)
Theorem rejected_bind_stops (this : ActiveDirectory) (dir : Directory)
    (username password : string) (customBase fourth : value) (message : string) :
  truthy (bind_error dir) = true ->
  resolveBindError (bind_error dir) = Return message ->
  (outcome (loginUser this dir (VStr username) (VStr password) customBase fourth)
     = Return (Failure message (bind_error dir))
   /\ requests (calls (loginUser this dir (VStr username) (VStr password) customBase fourth))
      = [ClientBind (VStr username) (VStr password)])
  /\ (outcome (getAllGroups this dir (VStr username) (VStr password) customBase fourth)
        = Return (Failure message (bind_error dir))
      /\ requests (calls (getAllGroups this dir (VStr username) (VStr password) customBase fourth))
         = [ClientBind (VStr username) (VStr password)])
  /\ (outcome (getAllUsers this dir (VStr username) (VStr password) customBase fourth)
        = Return (Failure message (bind_error dir))
      /\ requests (calls (getAllUsers this dir (VStr username) (VStr password) customBase fourth))
         = [ClientBind (VStr username) (VStr password)]).
Proof.
  intros Hb Hm.
  rewrite loginUser_course, getAllGroups_course, getAllUsers_course.
  rewrite !course_rejected by assumption.
  unfold outcome, calls, caught. cbn [fst snd]. rewrite Hm, requests_upToBind.
  repeat split.
Qed.

Lemma rejected_bind_stops_witness :
  outcome (loginUser exampleAD (rejecting lockedOut) (VStr "test@domain.local")
             (VStr "password") VUndefined VUndefined)
  = Return (Failure "Account is locked out" lockedOut).
Proof.
  exact (proj1 (proj1 (rejected_bind_stops exampleAD (rejecting lockedOut)
    "test@domain.local" "password" VUndefined VUndefined "Account is locked out"
    eq_refl eq_refl))).
Defined.

(** X10. A search that fails is answered like a failed bind: the failure
    object carries the error of the search and the message of
    [resolveBindError], which for every error whose name is not
    InvalidCredentialsError is Unknown Auth Error. *)
Theorem failed_search_is_an_auth_error (this : ActiveDirectory) (dir : Directory)
    (username password : string) (customBase fourth error name : value) :
  truthy (bind_error dir) = false ->
  search_result dir = SearchError error ->
  get error "name" = Return name ->
  name <> VStr "InvalidCredentialsError" ->
  outcome (loginUser this dir (VStr username) (VStr password) customBase fourth)
    = Return (Failure "Unknown Auth Error" error)
  /\ outcome (getAllGroups this dir (VStr username) (VStr password) customBase fourth)
     = Return (Failure "Unknown Auth Error" error)
  /\ outcome (getAllUsers this dir (VStr username) (VStr password) customBase fourth)
     = Return (Failure "Unknown Auth Error" error).
Proof.
  intros Hb Hs Hn Hne.
  rewrite loginUser_course, getAllGroups_course, getAllUsers_course.
  rewrite !course_accepted by assumption.
  unfold outcome, caught. cbn [snd].
  rewrite Hs, (resolveBindError_other_name _ _ Hn Hne). repeat split.
Qed.

Lemma failed_search_is_an_auth_error_witness :
  outcome (getAllUsers exampleAD (failing noSuchObject) (VStr "test@domain.local")
             (VStr "password") (VStr "ou=Nowhere,dc=domain,dc=local") VUndefined)
  = Return (Failure "Unknown Auth Error" noSuchObject).
Proof.
  refine (proj2 (proj2 (failed_search_is_an_auth_error exampleAD (failing noSuchObject)
    "test@domain.local" "password" (VStr "ou=Nowhere,dc=domain,dc=local") VUndefined
    noSuchObject (VStr "NoSuchObjectError") eq_refl eq_refl eq_refl _))).
  discriminate.
Defined.

(** X11. Each operation searches at the third argument when that is a string
    that is not empty, and at the base of the instance in every other case,
    the empty string included. *)
Theorem search_base_choice (this : ActiveDirectory) (dir : Directory)
    (username password : string) (customBase fourth : value) :
  truthy (bind_error dir) = false ->
  (forall b, customBase = VStr b -> b <> "" ->
     searchBases (calls (loginUser this dir (VStr username) (VStr password) customBase fourth))
       = [VStr b]
     /\ searchBases (calls (getAllGroups this dir (VStr username) (VStr password) customBase fourth))
        = [VStr b]
     /\ searchBases (calls (getAllUsers this dir (VStr username) (VStr password) customBase fourth))
        = [VStr b])
  /\ ((forall b, customBase = VStr b -> b = "") ->
      searchBases (calls (loginUser this dir (VStr username) (VStr password) customBase fourth))
        = [VStr (base this)]
      /\ searchBases (calls (getAllGroups this dir (VStr username) (VStr password) customBase fourth))
         = [VStr (base this)]
      /\ searchBases (calls (getAllUsers this dir (VStr username) (VStr password) customBase fourth))
         = [VStr (base this)]).
Proof.
  intros Hb.
  rewrite loginUser_course, getAllGroups_course, getAllUsers_course.
  rewrite !course_accepted by assumption.
  unfold calls. cbn [fst]. rewrite !searchBases_search. split.
  - intros b -> Hne. destruct b; [contradiction|]. repeat split.
  - intros Hcb. destruct customBase as [| | | |[|c s]| |]; try (repeat split; fail).
    discriminate (Hcb _ eq_refl).
Qed.

Lemma search_base_choice_witness :
  searchBases (calls (getAllUsers exampleAD (accepting []) (VStr "test@domain.local")
                        (VStr "password") (VStr "cn=Users,dc=domain,dc=local") VUndefined))
  = [VStr "cn=Users,dc=domain,dc=local"]
  /\ searchBases (calls (loginUser exampleAD (accepting []) (VStr "test@domain.local")
                          (VStr "password") (VStr "") VUndefined))
     = [VStr "dc=domain,dc=local"].
Proof.
  split.
  - refine (proj2 (proj2 (proj1 (search_base_choice exampleAD (accepting [])
      "test@domain.local" "password" (VStr "cn=Users,dc=domain,dc=local") VUndefined
      eq_refl) _ eq_refl _))). discriminate.
  - refine (proj1 (proj2 (search_base_choice exampleAD (accepting [])
      "test@domain.local" "password" (VStr "") VUndefined eq_refl) _)).
    now intros b [= <-].
Defined.

(** X12. The two listing operations search with their own filter whatever
    filter the configuration holds, and take every other option from the
    configuration; [getAllGroups] also sets the attributes to read, the six
    of the detailed form or the name. *)
Theorem listing_filters (this : ActiveDirectory) (dir : Directory)
    (username password : string) (customBase fourth : value) :
  truthy (bind_error dir) = false ->
  (exists search,
     searchesOf (calls (getAllGroups this dir (VStr username) (VStr password) customBase fourth))
       = [search]
     /\ search !! "filter" = Some (VStr "(objectCategory=group)")
     /\ search !! "attributes"
        = Some (if truthy (flag_shim customBase fourth) then detailedAttributes else VStr "name")
     /\ forall key, key <> "filter" -> key <> "attributes" ->
          search !! key = searchOptions this !! key)
  /\ (exists search,
        searchesOf (calls (getAllUsers this dir (VStr username) (VStr password) customBase fourth))
          = [search]
        /\ search !! "filter" = Some (VStr "(&(objectClass=user)(objectCategory=person))")
        /\ forall key, key <> "filter" -> search !! key = searchOptions this !! key).
Proof.
  intros Hb. rewrite getAllGroups_course, getAllUsers_course.
  rewrite !course_accepted by assumption.
  unfold calls. cbn [fst]. rewrite !searchesOf_search. split; eexists; (split; [reflexivity|]).
  - split; [now rewrite lookup_insert_ne, lookup_insert_eq|].
    split; [apply lookup_insert_eq|].
    intros key Hf Ha. now rewrite !lookup_insert_ne.
  - split; [apply lookup_insert_eq|]. intros key Hf. now rewrite lookup_insert_ne.
Qed.

Lemma listing_filters_witness :
  exists search,
    searchesOf (calls (getAllUsers filteredAD (accepting []) (VStr "test@domain.local")
                         (VStr "password") VUndefined VUndefined)) = [search]
    /\ searchOptions filteredAD !! "filter" = Some (VStr "(objectClass=computer)")
    /\ search !! "filter" = Some (VStr "(&(objectClass=user)(objectCategory=person))")
    /\ search !! "scope" = Some (VStr "one").
Proof.
  destruct (proj2 (listing_filters filteredAD (accepting []) "test@domain.local" "password"
                     VUndefined VUndefined eq_refl)) as (search & Hs & Hf & Hk).
  exists search. split; [exact Hs|]. split; [reflexivity|]. split; [exact Hf|].
  rewrite Hk; [reflexivity | discriminate].
Defined.

Lemma defaultFilter_sam (domain user : string) :
  ~ contains "@" (domain +:+ "\" +:+ user) ->
  ~ contains "DC=" (toUpperCase (domain +:+ "\" +:+ user)) ->
  ~ contains "\" user ->
  defaultFilter (domain +:+ "\" +:+ user) = "(sAMAccountName=" +:+ user +:+ ")".
Proof.
  intros Hat Hdc Hu. unfold defaultFilter. rewrite (logonType_sam _ Hat Hdc).
  cbn [String.eqb Ascii.eqb Bool.eqb].
  pose proof (cleanSama_after_last domain user Hu) as Hc.
  unfold cleanSama in Hc. cbn [callSplit cbind] in Hc. injection Hc as ->.
  reflexivity.
Qed.

Lemma defaultFilter_upn (username : string) :
  contains "@" username ->
  defaultFilter username = "(userPrincipalName=" +:+ username +:+ ")".
Proof. intros H. unfold defaultFilter. now rewrite (logonType_upn _ H). Qed.

Lemma spread_undefined (m : gmap string value) : union (spread VUndefined) m = m.
Proof. apply (left_id_L empty union). Qed.

(** X13. Without an override [loginUser] binds with the user name as it is
    given and searches for it as it is given: a name with an at sign goes
    into the filter whole and unescaped, a name DOMAIN\user goes into the
    filter without its domain while the bind keeps the domain. *)
Theorem loginUser_default_filter (this : ActiveDirectory) (dir : Directory)
    (username password : string) (customBase : value) :
  truthy (bind_error dir) = false ->
  (contains "@" username ->
   requests (calls (loginUser this dir (VStr username) (VStr password) customBase VUndefined))
   = [ClientBind (VStr username) (VStr password);
      ClientSearch (searchBase this customBase)
        (<["filter" := VStr ("(userPrincipalName=" +:+ username +:+ ")")]>
           (searchOptions this))])
  /\ (forall domain user,
        username = domain +:+ "\" +:+ user ->
        ~ contains "@" username -> ~ contains "DC=" (toUpperCase username) ->
        ~ contains "\" user ->
        requests (calls (loginUser this dir (VStr username) (VStr password) customBase
                           VUndefined))
        = [ClientBind (VStr username) (VStr password);
           ClientSearch (searchBase this customBase)
             (<["filter" := VStr ("(sAMAccountName=" +:+ user +:+ ")")]>
                (searchOptions this))]).
Proof.
  intros Hb. rewrite loginUser_course, course_accepted by assumption.
  unfold calls. cbn [fst]. rewrite requests_search, spread_undefined. split.
  - intros Hat. now rewrite defaultFilter_upn.
  - intros domain user -> Hat Hdc Hu. now rewrite defaultFilter_sam.
Qed.

Lemma loginUser_default_filter_witness :
  requests (calls (loginUser exampleAD (accepting []) (VStr "CORP\jdoe") (VStr "password")
                     VUndefined VUndefined))
  = [ClientBind (VStr "CORP\jdoe") (VStr "password");
     ClientSearch (VStr "dc=domain,dc=local")
       (<["filter" := VStr "(sAMAccountName=jdoe)"]> (searchOptions exampleAD))]
  /\ requests (calls (loginUser exampleAD (accepting []) (VStr "jdoe)(cn=admin@x") (VStr "password")
                        VUndefined VUndefined))
     = [ClientBind (VStr "jdoe)(cn=admin@x") (VStr "password");
        ClientSearch (VStr "dc=domain,dc=local")
          (<["filter" := VStr "(userPrincipalName=jdoe)(cn=admin@x)"]> (searchOptions exampleAD))].
Proof.
  split.
  - apply (proj2 (loginUser_default_filter exampleAD (accepting []) "CORP\jdoe" "password"
      VUndefined eq_refl) "CORP" "jdoe" eq_refl); now apply indexOf_absent.
  - apply (proj1 (loginUser_default_filter exampleAD (accepting []) "jdoe)(cn=admin@x" "password"
      VUndefined eq_refl)). now exists "jdoe)(cn=admin", "x".
Defined.

Lemma flag_shim_plain (customBase flag : value) :
  typeof customBase <> "boolean" -> flag_shim customBase flag = flag.
Proof.
  intros H. unfold flag_shim.
  destruct (String.eqb_spec (typeof customBase) "boolean"); [contradiction|].
  now rewrite andb_false_r.
Qed.

(** X14. [getAllUsers] hands the records over as they came when the flag is
    not set. With the flag set every record goes through [createUserObj]:
    either all of them decode, and there is one user object for each record,
    or one of them does not, and the whole listing fails with Unknown Auth
    Error. *)
Theorem getAllUsers_payload (this : ActiveDirectory) (dir : Directory)
    (username password : string) (customBase formatted : value)
    (records : list SearchEntry) :
  truthy (bind_error dir) = false ->
  search_result dir = SearchEnd records ->
  typeof customBase <> "boolean" ->
  (truthy formatted = false ->
   outcome (getAllUsers this dir (VStr username) (VStr password) customBase formatted)
   = Return (Success (Entries records)))
  /\ (truthy formatted = true ->
      (forall users, mapM createUserObj records = Return users ->
         outcome (getAllUsers this dir (VStr username) (VStr password) customBase formatted)
         = Return (Success (UserObjs users))
         /\ length users = length records)
      /\ (forall entry e, In entry records -> createUserObj entry = Throw e ->
            exists e',
              outcome (getAllUsers this dir (VStr username) (VStr password) customBase
                         formatted)
              = Return (Failure "Unknown Auth Error" e'))).
Proof.
  intros Hb Hs Hc. rewrite getAllUsers_course, course_accepted by assumption.
  unfold outcome. cbn [snd]. rewrite Hs, (flag_shim_plain _ _ Hc). split.
  - now intros ->.
  - intros ->. split.
    + intros users Hu. rewrite Hu. split; [reflexivity|]. now apply mapM_length in Hu.
    + intros entry e Hin He. destruct (mapM_throws _ _ _ _ Hin He) as [e' He'].
      exists e'. rewrite He'. apply caught_decoderError.
      apply mapM_thrown in He' as (x & _ & Hx). eauto using createUserObj_throws.
Qed.

Lemma getAllUsers_payload_witness :
  (exists e,
     outcome (getAllUsers exampleAD (accepting [testEntry; groupsEntry VUndefined])
                (VStr "test@domain.local") (VStr "password") VUndefined (VBool true))
     = Return (Failure "Unknown Auth Error" e))
  /\ outcome (getAllUsers exampleAD (accepting [testEntry; groupsEntry VUndefined])
                (VStr "test@domain.local") (VStr "password") VUndefined VUndefined)
     = Return (Success (Entries [testEntry; groupsEntry VUndefined])).
Proof.
  assert (Hc : typeof VUndefined <> "boolean") by discriminate.
  split.
  - refine (proj2 (proj2 (getAllUsers_payload exampleAD
      (accepting [testEntry; groupsEntry VUndefined]) "test@domain.local" "password"
      VUndefined (VBool true) _ eq_refl eq_refl Hc) eq_refl)
      (groupsEntry VUndefined) (newError "Error" "Attributes must be an array") _ eq_refl).
    right; left; reflexivity.
  - exact (proj1 (getAllUsers_payload exampleAD
      (accepting [testEntry; groupsEntry VUndefined]) "test@domain.local" "password"
      VUndefined VUndefined _ eq_refl eq_refl Hc) eq_refl).
Defined.

(** X15. Without the detailed flag [getAllGroups] returns the name attribute
    of every record, in the order of the records; a record without a name
    keeps its place and gives [undefined]. *)
Theorem getAllGroups_names (this : ActiveDirectory) (dir : Directory)
    (username password : string) (customBase detailed : value)
    (records : list SearchEntry) :
  truthy (bind_error dir) = false ->
  search_result dir = SearchEnd records ->
  typeof customBase <> "boolean" ->
  truthy detailed = false ->
  Forall (fun entry => exists props, object entry = VObj props) records ->
  outcome (getAllGroups this dir (VStr username) (VStr password) customBase detailed)
  = Return (Success (GroupNames (map nameOf records))).
Proof.
  intros Hb Hs Hc Hd Hr. rewrite getAllGroups_course, course_accepted by assumption.
  unfold outcome. cbn [snd]. rewrite Hs, (flag_shim_plain _ _ Hc), Hd.
  rewrite (mapM_returns _ nameOf); [reflexivity|].
  eapply Forall_impl; [exact Hr|]. intros entry [props Ho]. unfold nameOf. now rewrite Ho.
Qed.

Lemma getAllGroups_names_witness :
  outcome (getAllGroups exampleAD
             (accepting [namedGroup "Domain Users"; groupsEntry VUndefined; namedGroup "Staff"])
             (VStr "test@domain.local") (VStr "password") VUndefined VUndefined)
  = Return (Success (GroupNames [VStr "Domain Users"; VUndefined; VStr "Staff"])).
Proof.
  refine (getAllGroups_names exampleAD
    (accepting [namedGroup "Domain Users"; groupsEntry VUndefined; namedGroup "Staff"])
    "test@domain.local" "password" VUndefined VUndefined _ eq_refl eq_refl _ eq_refl _).
  - discriminate.
  - repeat constructor; eexists; reflexivity.
Defined.

(** X16. With the detailed flag [getAllGroups] needs both timestamps of
    every record: one record without whenCreated or without whenChanged
    makes the whole listing fail with Unknown Auth Error, though the bind
    and the search went well. *)
Theorem getAllGroups_detailed_needs_dates (this : ActiveDirectory) (dir : Directory)
    (username password : string) (customBase detailed : value)
    (records : list SearchEntry) (entry : SearchEntry) (props : gmap string value) :
  truthy (bind_error dir) = false ->
  search_result dir = SearchEnd records ->
  typeof customBase <> "boolean" ->
  truthy detailed = true ->
  In entry records ->
  object entry = VObj props ->
  props !! "whenCreated" = None \/ props !! "whenChanged" = None ->
  exists e,
    outcome (getAllGroups this dir (VStr username) (VStr password) customBase detailed)
    = Return (Failure "Unknown Auth Error" e).
Proof.
  intros Hb Hs Hc Hd Hin Ho Hmissing.
  rewrite getAllGroups_course, course_accepted by assumption.
  unfold outcome. cbn [snd]. rewrite Hs, (flag_shim_plain _ _ Hc), Hd.
  assert (Hthrow : exists e, getDetails records = Throw e).
  { unfold getDetails.
    match goal with
    | |- exists e, mapM ?f records = Throw e =>
        assert (exists e, f entry = Throw e) as [e0 He0]
    end.
    { rewrite Ho. cbn [get cbind].
      destruct (resolveGUID entry); cbn [cbind]; [|eauto].
      destruct Hmissing as [Hcr|Hch].
      - rewrite Hcr. simpl. eauto.
      - destruct (convertToDate _); cbn [cbind]; [|eauto].
        rewrite Hch. simpl. eauto. }
    exact (mapM_throws _ _ _ _ Hin He0). }
  destruct Hthrow as [e He]. exists e. rewrite He.
  apply caught_decoderError. eauto using getDetails_throws.
Qed.

Lemma getAllGroups_detailed_needs_dates_witness :
  exists e,
    outcome (getAllGroups exampleAD (accepting [namedGroup "Staff"])
               (VStr "test@domain.local") (VStr "password") VUndefined (VBool true))
    = Return (Failure "Unknown Auth Error" e).
Proof.
  refine (getAllGroups_detailed_needs_dates exampleAD (accepting [namedGroup "Staff"])
    "test@domain.local" "password" VUndefined (VBool true) [namedGroup "Staff"]
    (namedGroup "Staff") _ eq_refl eq_refl _ eq_refl _ eq_refl _).
  - discriminate.
  - now left.
  - now left.
Defined.

Lemma typeof_string (v : value) : typeof v = "string" -> exists s, v = VStr s.
Proof. destruct v; try discriminate. eauto. Qed.

(** X17. The promise of an operation is never rejected: whatever the
    arguments, and whatever the directory answers, as long as its errors are
    objects whose diagnostic is a string or missing, nothing thrown inside
    [loginUser], [getAllGroups] or [getAllUsers] leaves it; the [catch]
    clause classifies every error without throwing itself. Whether the
    promise settles is no part of the statement: it stays pending, and so is
    not rejected either, when ldapjs never answers. *)
Theorem operations_never_reject (this : ActiveDirectory) (dir : Directory)
    (username password customBase fourth : value) :
  (truthy (bind_error dir) = true -> ldapjsError (bind_error dir)) ->
  (forall e, search_result dir = SearchError e -> ldapjsError e) ->
  (forall e, outcome (loginUser this dir username password customBase fourth) <> Throw e)
  /\ (forall e, outcome (getAllGroups this dir username password customBase fourth) <> Throw e)
  /\ (forall e, outcome (getAllUsers this dir username password customBase fourth) <> Throw e).
Proof.
  intros Hbind Hsearch.
  destruct (decide (typeof username = "string")) as [Hu|Hu];
    [destruct (decide (typeof password = "string")) as [Hp|Hp]|].
  - apply typeof_string in Hu as [u ->]. apply typeof_string in Hp as [p ->].
    rewrite loginUser_course, getAllGroups_course, getAllUsers_course.
    destruct (truthy (bind_error dir)) eqn:Hb.
    + rewrite !course_rejected by assumption. unfold outcome. cbn [snd].
      destruct (caught_ldapjsError (P := option SearchEntry) _ (Hbind eq_refl)) as [m ->].
      destruct (caught_ldapjsError (P := GroupsPayload) _ (Hbind eq_refl)) as [m' ->].
      destruct (caught_ldapjsError (P := UsersPayload) _ (Hbind eq_refl)) as [m'' ->].
      repeat split; discriminate.
    + rewrite !course_accepted by assumption. unfold outcome. cbn [snd].
      destruct (search_result dir) as [records|e].
      * split; [discriminate|]. split.
        -- destruct (truthy (flag_shim customBase fourth)).
           ++ destruct (getDetails records) eqn:Hg; cbn beta iota; [discriminate|].
              rewrite caught_decoderError by eauto using getDetails_throws. discriminate.
           ++ destruct (mapM _ records) eqn:Hg; cbn beta iota; [discriminate|].
              rewrite caught_decoderError; [discriminate|].
              apply mapM_thrown in Hg as (x & _ & Hx). eauto using get_throws.
        -- destruct (truthy (flag_shim customBase fourth)); [|discriminate].
           destruct (mapM createUserObj records) eqn:Hg; cbn beta iota; [discriminate|].
           rewrite caught_decoderError; [discriminate|].
           apply mapM_thrown in Hg as (x & _ & Hx). eauto using createUserObj_throws.
      * destruct (caught_ldapjsError (P := option SearchEntry) _ (Hsearch _ eq_refl)) as [m ->].
        destruct (caught_ldapjsError (P := GroupsPayload) _ (Hsearch _ eq_refl)) as [m' ->].
        destruct (caught_ldapjsError (P := UsersPayload) _ (Hsearch _ eq_refl)) as [m'' ->].
        repeat split; discriminate.
  - assert (H : typeof username <> "string" \/ typeof password <> "string") by now right.
    destruct (loginUser_rejects this dir _ _ customBase fourth H) as (m & e & -> & _).
    rewrite (proj1 (getAllGroups_rejects this dir _ _ customBase fourth H)).
    rewrite (proj1 (getAllUsers_rejects this dir _ _ customBase fourth H)).
    repeat split; discriminate.
  - assert (H : typeof username <> "string" \/ typeof password <> "string") by now left.
    destruct (loginUser_rejects this dir _ _ customBase fourth H) as (m & e & -> & _).
    rewrite (proj1 (getAllGroups_rejects this dir _ _ customBase fourth H)).
    rewrite (proj1 (getAllUsers_rejects this dir _ _ customBase fourth H)).
    repeat split; discriminate.
Qed.

Lemma operations_never_reject_witness :
  outcome (getAllGroups exampleAD (failing noSuchObject) (VStr "test@domain.local")
             (VStr "password") VNull (VNum 1)) <> Throw noSuchObject.
Proof.
  refine (proj1 (proj2 (operations_never_reject exampleAD (failing noSuchObject)
    (VStr "test@domain.local") (VStr "password") VNull (VNum 1) _ _)) noSuchObject).
  - discriminate.
  - intros e [= <-]. eexists. split; [reflexivity|]. right. eexists. reflexivity.
Defined.

(** X18. The constructor keeps a base that is not empty and takes the
    legacy suffix for an empty one; an instance built from the suffix alone
    searches at the suffix. *)
Theorem suffix_is_the_fallback_base (url : value) (suffix newBase : string)
    (options : gmap string value) (idleTimeout tlsOptions : value) :
  (newBase <> "" -> base (constructor url suffix newBase options idleTimeout tlsOptions) = newBase)
  /\ (newBase = "" -> base (constructor url suffix newBase options idleTimeout tlsOptions) = suffix)
  /\ (forall dir username password formatted,
        truthy (bind_error dir) = false ->
        searchBases (calls (getAllUsers (constructor url suffix "" options idleTimeout tlsOptions)
                              dir (VStr username) (VStr password) VUndefined formatted))
        = [VStr suffix]).
Proof.
  assert (Hempty : base (constructor url suffix "" options idleTimeout tlsOptions) = suffix).
  { unfold constructor. cbn [base]. now destruct suffix. }
  split; [|split].
  - intros H. unfold constructor. cbn [base]. destruct newBase; [contradiction|].
    cbn [String.length Nat.eqb]. now rewrite andb_false_r.
  - now intros ->.
  - intros dir username password formatted Hb.
    rewrite getAllUsers_course, course_accepted by assumption.
    unfold calls. cbn [fst]. rewrite searchBases_search. cbn [searchBase]. now rewrite Hempty.
Qed.

Lemma suffix_is_the_fallback_base_witness :
  base (constructor (VStr "ldap://192.168.1.1") "dc=old,dc=local" "dc=domain,dc=local"
          empty (VNum 3000) (VObj empty)) = "dc=domain,dc=local"
  /\ searchBases (calls (getAllUsers
       (constructor (VStr "ldap://192.168.1.1") "dc=old,dc=local" "" empty (VNum 3000)
          (VObj empty))
       (accepting []) (VStr "test@domain.local") (VStr "password") VUndefined VUndefined))
     = [VStr "dc=old,dc=local"].
Proof.
  split.
  - apply (proj1 (suffix_is_the_fallback_base (VStr "ldap://192.168.1.1") "dc=old,dc=local"
      "dc=domain,dc=local" empty (VNum 3000) (VObj empty))). discriminate.
  - exact (proj2 (proj2 (suffix_is_the_fallback_base (VStr "ldap://192.168.1.1")
      "dc=old,dc=local" "" empty (VNum 3000) (VObj empty)))
      (accepting []) "test@domain.local" "password" VUndefined eq_refl).
Defined.

(** ** An override that is a string *)

Lemma pretty_go_not_f (x : N) (s s' : string) :
  s <> String "f" s' -> pretty_N_go x s <> String "f" s'.
Proof.
  revert s. induction (N.lt_wf_0 x) as [x _ IH]. intros s Hs.
  destruct (N.eq_dec x 0%N) as [->|Hx]; [now rewrite pretty_N_go_0|].
  rewrite pretty_N_go_step by lia. apply IH; [apply N.div_lt; lia|].
  intros [= Hc _]. unfold pretty_N_char in Hc. repeat case_match; discriminate.
Qed.

Lemma pretty_nat_not_filter (i : nat) : pretty i <> "filter".
Proof.
  unfold pretty, pretty_nat, pretty, pretty_N.
  case_decide; [discriminate|]. apply pretty_go_not_f. discriminate.
Qed.

Lemma spread_string_other (text key : string) :
  (forall i : nat, key <> pretty i) -> spread (VStr text) !! key = None.
Proof.
  intros Hkey. unfold spread. apply not_elem_of_list_to_map_1.
  rewrite list_elem_of_fmap. intros ([k v] & Hk & Hin).
  apply elem_of_lookup_imap_1 in Hin as (i & c & Heq & _).
  injection Heq as -> _. exact (Hkey i Hk).
Qed.

(** X19. An override that is a string, which is what the doc comment of
    [loginUser] asks for, does not reach the filter: the search goes out with
    the filter built from the user name, and with every option of the
    configuration whose name is not a number. *)
Theorem loginUser_string_override (this : ActiveDirectory) (dir : Directory)
    (username password : string) (customBase : value) (text : string) :
  truthy (bind_error dir) = false ->
  exists search,
    searchesOf (calls (loginUser this dir (VStr username) (VStr password) customBase
                         (VStr text))) = [search]
    /\ search !! "filter" = Some (VStr (defaultFilter username))
    /\ forall key, key <> "filter" -> (forall i : nat, key <> pretty i) ->
         search !! key = searchOptions this !! key.
Proof.
  intros Hb. rewrite loginUser_course, course_accepted by assumption.
  unfold calls. cbn [fst]. rewrite searchesOf_search. eexists. split; [reflexivity|]. split.
  - rewrite lookup_union_r by (apply spread_string_other; intros i Hi;
      exact (pretty_nat_not_filter i (eq_sym Hi))).
    apply lookup_insert_eq.
  - intros key Hf Hkey. rewrite lookup_union_r by now apply spread_string_other.
    now apply lookup_insert_ne.
Qed.

Lemma loginUser_string_override_witness :
  exists search,
    searchesOf (calls (loginUser exampleAD (accepting []) (VStr "test@domain.local")
                         (VStr "password") VUndefined (VStr "(cn=jdoe)"))) = [search]
    /\ search !! "filter" = Some (VStr "(userPrincipalName=test@domain.local)").
Proof.
  destruct (loginUser_string_override exampleAD (accepting []) "test@domain.local" "password"
              VUndefined "(cn=jdoe)" eq_refl) as (search & Hs & Hf & _).
  exists search. split; [exact Hs | exact Hf].
Defined.

(** ** resolveGroups on well-formed values *)

Lemma stake_append (pre rest : string) : stake (String.length pre) (pre +:+ rest) = pre.
Proof.
  induction pre as [|c pre IH]; [now destruct rest|].
  rewrite append_cons. cbn [String.length stake]. now rewrite IH.
Qed.

Lemma index_first_char (c : ascii) (pre rest : string) :
  includes (String c "") pre = false ->
  String.index 0 (String c "") (pre +:+ String c rest) = Some (String.length pre).
Proof.
  induction pre as [|x pre IH].
  - intros _. rewrite append_nil_l, index_cons, prefix_cons, prefix_nil.
    now destruct (decide (c = c)).
  - rewrite includes_char_cons. intros H. apply orb_false_elim in H as [Hx Hpre].
    apply bool_decide_eq_false in Hx.
    rewrite append_cons, index_cons, prefix_cons.
    destruct (decide (c = x)); [contradiction|]. now rewrite (IH Hpre).
Qed.

Lemma leading_component (name rest : string) :
  ~ contains "," name -> ~ contains "CN=" name ->
  afterCN (before "," ("CN=" +:+ name +:+ "," +:+ rest)) = VStr name.
Proof.
  intros Hcomma Hcn.
  assert (Hpre : includes "," ("CN=" +:+ name) = false).
  { rewrite !append_cons, append_nil_l, !includes_char_cons.
    destruct (includes "," name) eqn:E; [apply includes_contains in E; contradiction|].
    reflexivity. }
  replace ("CN=" +:+ name +:+ "," +:+ rest) with (("CN=" +:+ name) +:+ String "," rest)
    by now rewrite append_assoc.
  unfold before. rewrite (index_first_char _ _ _ Hpre), stake_append.
  now apply afterCN_prefix.
Qed.

(** X20. On an array of distinguished names CN=name,... whose names hold
    neither a comma nor CN=, [resolveGroups] returns the names, one for each
    element and in the same order. *)
Theorem resolveGroups_distinguished_names (entry : SearchEntry)
    (props : gmap string value) (dns : list (string * string)) :
  object entry = VObj props ->
  props !! "memberOf"
    = Some (VArr (map (fun dn => VStr ("CN=" +:+ fst dn +:+ "," +:+ snd dn)) dns)) ->
  Forall (fun dn => ~ contains "," (fst dn) /\ ~ contains "CN=" (fst dn)) dns ->
  resolveGroups entry = Return (map (fun dn => VStr (fst dn)) dns).
Proof.
  intros Ho Hm Hdns.
  rewrite (resolveGroups_array entry props
             (map (fun dn => "CN=" +:+ fst dn +:+ "," +:+ snd dn) dns) Ho)
    by now rewrite Hm, map_map.
  f_equal. rewrite map_map. apply map_ext_in. intros dn Hin.
  rewrite Forall_forall in Hdns.
  destruct (Hdns dn) as [Hcomma Hcn]; [now apply list_elem_of_In|].
  now apply leading_component.
Qed.

Lemma resolveGroups_distinguished_names_witness :
  resolveGroups testEntry = Return [VStr "Group1"; VStr "Group2"].
Proof.
  refine (resolveGroups_distinguished_names testEntry _
    [("Group1", "OU=Test,DC=domain,DC=com"); ("Group2", "OU=Test,OU=Test2,DC=domain,DC=com")]
    eq_refl eq_refl _).
  repeat constructor; now apply indexOf_absent.
Defined.

(** X21. With a memberOf that is a string every element of the result is a
    string, one for each component that holds CN=; an [undefined] can only
    come out of the array form. *)
Theorem resolveGroups_string_gives_strings (entry : SearchEntry)
    (props : gmap string value) (s : string) :
  object entry = VObj props ->
  props !! "memberOf" = Some (VStr s) ->
  exists names : list string,
    resolveGroups entry = Return (map VStr names)
    /\ length names = length (List.filter (includes "CN=") (split "," s)).
Proof.
  intros Ho Hm. rewrite (resolveGroups_string entry props s Ho Hm).
  generalize (split "," s). intros l.
  induction l as [|c l (names & Hn & Hl)]; [now exists []|].
  cbn [List.filter]. destruct (includes "CN=" c) eqn:Hc; [|now exists names].
  destruct (afterCN_present c) as [name Hname]; [now apply includes_contains|].
  exists (name :: names). cbn [map length]. rewrite Hname, Hl.
  split; [|reflexivity]. injection Hn as ->. reflexivity.
Qed.

Lemma resolveGroups_string_gives_strings_witness :
  exists names : list string,
    resolveGroups (groupsEntry (VStr "CN=Group1,CN=Group2,DC=domain,DC=com"))
      = Return (map VStr names)
    /\ length names = 2%nat.
Proof.
  exact (resolveGroups_string_gives_strings
           (groupsEntry (VStr "CN=Group1,CN=Group2,DC=domain,DC=com")) _ _ eq_refl eq_refl).
Defined.
